(** * eos-bios: launch-data loading and integrity hashing

    A shallow embedding of [loadLaunchFile], [hashFile], [hashCodeFiles]
    and [main] of the eos-bios boot tool, together with the properties of
    the launch-integrity verification that the design document states.

    Go's multiple return values are pairs, a [nil] pointer or a [nil]
    error is [None], file contents are [list byte], and every effect the
    code performs (file reads, printed lines, client calls, process exit)
    is an entry of an event trace. *)

From Stdlib Require Import ZArith List Bool Lia Permutation.
From Stdlib.Strings Require Import String Ascii Byte.
Import ListNotations.

Local Open Scope Z_scope.

Definition bytes := list byte.

Definition Z_of_byte (b : byte) : Z := Z.of_N (Byte.to_N b).

Definition byte_of_Z (z : Z) : byte :=
  match Byte.of_N (Z.to_N (z mod 256)) with
  | Some b => b
  | None => x00
  end.

(** ** crypto/sha256

    The streaming digest of Go's standard library: [New], [Write] and
    [Sum] over a state of eight 32-bit words, a block buffer and the
    count of bytes written so far.  Words are [Z] reduced modulo 2^32. *)

Module sha256.

Definition mask32 : Z := 4294967295.

Definition w32 (x : Z) : Z := x mod 4294967296.

Definition add32 (x y : Z) : Z := w32 (x + y).

Definition not32 (x : Z) : Z := Z.lxor x mask32.

Definition rotr (n x : Z) : Z :=
  Z.lor (Z.shiftr x n) (w32 (Z.shiftl x (32 - n))).

Definition Ch (x y z : Z) : Z := Z.lxor (Z.land x y) (Z.land (not32 x) z).

Definition Maj (x y z : Z) : Z :=
  Z.lxor (Z.lxor (Z.land x y) (Z.land x z)) (Z.land y z).

Definition bsig0 (x : Z) : Z := Z.lxor (Z.lxor (rotr 2 x) (rotr 13 x)) (rotr 22 x).

Definition bsig1 (x : Z) : Z := Z.lxor (Z.lxor (rotr 6 x) (rotr 11 x)) (rotr 25 x).

Definition ssig0 (x : Z) : Z := Z.lxor (Z.lxor (rotr 7 x) (rotr 18 x)) (Z.shiftr x 3).

Definition ssig1 (x : Z) : Z := Z.lxor (Z.lxor (rotr 17 x) (rotr 19 x)) (Z.shiftr x 10).

(** The round constants.  Go's [_K] table holds, as FIPS 180-4 defines
    them, the first 32 bits of the fractional part of the cube root of
    each of the first 64 primes; they are computed here from that
    definition. *)
Definition is_prime (n : nat) : bool :=
  (2 <=? n)%nat
  && forallb (fun d => negb (Nat.eqb (n mod d) 0)) (seq 2 (n - 2)).

Definition first_primes (count bound : nat) : list nat :=
  firstn count (filter is_prime (seq 2 bound)).

(** The integer cube root, bit by bit from position [bits - 1] down. *)
Fixpoint icbrt_from (bits : nat) (n r : Z) : Z :=
  match bits with
  | O => r
  | S b =>
      let c := r + Z.shiftl 1 (Z.of_nat b) in
      icbrt_from b n (if c * c * c <=? n then c else r)
  end.

Definition icbrt (n : Z) : Z := icbrt_from 40 n 0.

Definition cube_root_fraction (p : nat) : Z :=
  w32 (icbrt (Z.shiftl (Z.of_nat p) 96)).

Definition _K : list Z :=
  Eval vm_compute in map cube_root_fraction (first_primes 64 320).

(** The chaining value [h[0..7]]. *)
Record hstate := mkH {
  h0 : Z; h1 : Z; h2 : Z; h3 : Z; h4 : Z; h5 : Z; h6 : Z; h7 : Z
}.

Definition init : hstate :=
  mkH 0x6a09e667 0xbb67ae85 0x3c6ef372 0xa54ff53a
      0x510e527f 0x9b05688c 0x1f83d9ab 0x5be0cd19.

(** Big-endian 32-bit words of a block. *)
Fixpoint words_of (p : bytes) : list Z :=
  match p with
  | a :: b :: c :: d :: rest =>
      Z.lor (Z.lor (Z.lor (Z.shiftl (Z_of_byte a) 24) (Z.shiftl (Z_of_byte b) 16))
                   (Z.shiftl (Z_of_byte c) 8)) (Z_of_byte d)
      :: words_of rest
  | _ => []
  end.

(** The message schedule, most recent word first: [n] more words are
    added to the reversed list [rw]. *)
Fixpoint extend (n : nat) (rw : list Z) : list Z :=
  match n with
  | O => rw
  | S n' =>
      let v1 := ssig1 (nth 1 rw 0) in
      let v2 := ssig0 (nth 14 rw 0) in
      extend n' (add32 (add32 (add32 v1 (nth 6 rw 0)) v2) (nth 15 rw 0) :: rw)
  end.

Definition schedule (p : bytes) : list Z :=
  rev (extend 48 (rev (words_of p))).

Definition round (s : hstate) (kw : Z * Z) : hstate :=
  let '(k, w) := kw in
  let t1 := add32 (add32 (add32 (add32 (h7 s) (bsig1 (h4 s)))
                                 (Ch (h4 s) (h5 s) (h6 s))) k) w in
  let t2 := add32 (bsig0 (h0 s)) (Maj (h0 s) (h1 s) (h2 s)) in
  mkH (add32 t1 t2) (h0 s) (h1 s) (h2 s) (add32 (h3 s) t1) (h4 s) (h5 s) (h6 s).

(** One 64-byte block folded into the chaining value. *)
Definition block (s : hstate) (p : bytes) : hstate :=
  let r := fold_left round (combine _K (schedule p)) s in
  mkH (add32 (h0 s) (h0 r)) (add32 (h1 s) (h1 r))
      (add32 (h2 s) (h2 r)) (add32 (h3 s) (h3 r))
      (add32 (h4 s) (h4 r)) (add32 (h5 s) (h5 r))
      (add32 (h6 s) (h6 r)) (add32 (h7 s) (h7 r)).

(** The [digest] object: chaining value, pending bytes, bytes written. *)
Record digest := mkDigest {
  h : hstate;
  x : bytes;
  len : Z
}.

Definition New : digest := mkDigest init [] 0.

Definition write_byte (d : digest) (b : byte) : digest :=
  let buf := (x d ++ [b])%list in
  if (Z.of_nat (List.length buf) =? 64)
  then mkDigest (block (h d) buf) [] ((len d + 1) mod 2 ^ 64)
  else mkDigest (h d) buf ((len d + 1) mod 2 ^ 64).

Definition Write (d : digest) (p : bytes) : digest := fold_left write_byte p d.

Definition be_bytes (n : nat) (v : Z) : bytes :=
  map (fun i => byte_of_Z (Z.shiftr v (8 * Z.of_nat i))) (rev (seq 0 n)).

(** Padding of [checkSum]: 0x80, zeros up to 56 mod 64, the bit length. *)
Definition padding (l : Z) : bytes :=
  let r := l mod 64 in
  let n := if r <? 56 then 56 - r else 64 + 56 - r in
  (x80 :: repeat x00 (Z.to_nat (n - 1)))
    ++ be_bytes 8 ((l * 8) mod 2 ^ 64).

Definition out_bytes (s : hstate) : bytes :=
  (be_bytes 4 (h0 s) ++ be_bytes 4 (h1 s) ++ be_bytes 4 (h2 s) ++ be_bytes 4 (h3 s)
   ++ be_bytes 4 (h4 s) ++ be_bytes 4 (h5 s) ++ be_bytes 4 (h6 s) ++ be_bytes 4 (h7 s))%list.

(** [d.Sum(nil)]: the digest of everything written so far. *)
Definition Sum (d : digest) : bytes :=
  out_bytes (h (Write d (padding (len d)))).

(** The digest of a whole message. *)
Definition Sum256 (p : bytes) : bytes := Sum (Write New p).

End sha256.

Arguments sha256.Write : simpl never.
Arguments sha256.Sum : simpl never.
Arguments sha256.Sum256 : simpl never.

(** ** encoding/hex *)

Module hex.

Definition hextable : list ascii :=
  list_ascii_of_string "0123456789abcdef".

Definition digit (v : Z) : ascii := nth (Z.to_nat v) hextable "0"%char.

Fixpoint EncodeToString (src : bytes) : string :=
  match src with
  | [] => EmptyString
  | b :: rest =>
      String (digit (Z.shiftr (Z_of_byte b) 4))
        (String (digit (Z.land (Z_of_byte b) 15)) (EncodeToString rest))
  end.

(** Decoding, as [encoding/hex] does it. *)
Definition fromHexChar (c : ascii) : option Z :=
  let n := Z.of_nat (nat_of_ascii c) in
  if (48 <=? n) && (n <=? 57) then Some (n - 48)
  else if (97 <=? n) && (n <=? 102) then Some (n - 97 + 10)
  else if (65 <=? n) && (n <=? 70) then Some (n - 65 + 10)
  else None.

Definition decodeByte (c1 c2 : ascii) : option byte :=
  match fromHexChar c1, fromHexChar c2 with
  | Some a, Some b => Some (byte_of_Z (Z.lor (Z.shiftl a 4) b))
  | _, _ => None
  end.

End hex.

Definition bytes_of_string (s : string) : bytes := list_byte_of_string s.

Local Open Scope string_scope.
Local Open Scope list_scope.

(** ** Errors, events and the effect monad *)

(** A Go [error] value.  [ExternalError] is an error produced outside the
    files modelled here (the operating system, the YAML decoder, the
    chain client); [Errorf] is [fmt.Errorf] with its format string as
    written in the source and its arguments unrendered. *)
Inductive error :=
| ExternalError (msg : string)
| Errorf (format : string) (args : list arg)
with arg :=
| AString (s : string)
| AError (e : error)
| ANow.

(** What a run does to the outside world, in order.  [EvSum] records that
    a hasher finalised a digest ([h.Sum(nil)] hex-encoded); it is not
    visible outside the process and is kept so that "every computed hash"
    can be spoken of. *)
Inductive Event :=
| EvReadFile (path : string)
| EvSum (digest : string)
| EvPrintf (format : string) (args : list arg)
| EvLoadLocalConfig (path : string)
| EvNewAPI (url : string)
| EvNewWalletSigner (name : string)
| EvSetSigner
| EvWalletPublicKeys
| EvNewSnapshot (path : string)
| EvNewBIOS
| EvShuffleProducers
| EvRun
| EvFatal (args : list arg)
| EvFatalf (format : string) (args : list arg).

(** How a Go function call ends: it returns, it panics (nil pointer
    dereference), or the process exits ([log.Fatal*] calls [os.Exit(1)]). *)
Inductive outcome (A : Type) :=
| Ret (a : A)
| Panic
| Exit (code : Z).

Arguments Ret {A} a.
Arguments Panic {A}.
Arguments Exit {A} code.

Definition M (A : Type) : Type := outcome A * list Event.

Definition ret {A} (a : A) : M A := (Ret a, []).

Definition bind {A B} (m : M A) (f : A -> M B) : M B :=
  match m with
  | (Ret a, t) => let '(r, t') := f a in (r, (t ++ t')%list)
  | (Panic, t) => (Panic, t)
  | (Exit c, t) => (Exit c, t)
  end.

Definition emit (e : Event) : M unit := (Ret tt, [e]).

Definition panic {A} : M A := (Panic, []).

(** Dereferencing a pointer: a nil pointer panics. *)
Definition deref {A} (p : option A) : M A :=
  match p with
  | Some a => ret a
  | None => panic
  end.

Declare Scope go_scope.
Delimit Scope go_scope with go.
Notation "x <- c ;; k" := (bind c (fun x => k))
  (at level 61, c at next level, right associativity) : go_scope.
Notation "' p <- c ;; k" := (bind c (fun v => let 'p := v in k))
  (at level 61, p pattern, c at next level, right associativity) : go_scope.
Notation "c ;;; k" := (bind c (fun _ => k))
  (at level 61, right associativity) : go_scope.
Local Open Scope go_scope.

Definition trace {A} (m : M A) : list Event := snd m.
Definition result {A} (m : M A) : outcome A := fst m.

(** ** Data model *)

Module eos.

Definition AccountName := string.

(** Modelled from the spec: [eos.Authority] is declared by the chain
    client library, not by these files; the spec describes it as a
    weighted set of keys and accounts that is passed through unmodified. *)
Record Authority := mkAuthority {
  Keys : list (string * Z);
  Accounts : list (string * Z)
}.

End eos.

Module ecc.

(** Modelled from the spec: [ecc.PublicKey] is declared by the chain
    client library; only its key material is carried. *)
Record PublicKey := mkPublicKey { Content : bytes }.

End ecc.

Module ProducerAuthority.
Record t := mk { Owner : eos.Authority; Active : eos.Authority }.
End ProducerAuthority.

Record ProducerDef := mkProducerDef {
  AccountName : eos.AccountName;
  Authority : ProducerAuthority.t;
  InitialBlockSigningPublicKey : ecc.PublicKey;
  KeybaseUser : string;
  PGPPublicKey : string;
  OrganizationName : string;
  URLs : list string
}.

Module ContractHashes.
Record t := mk { BIOS : string; System : string; Msig : string; Token : string }.
End ContractHashes.

Record LaunchData := mkLaunchData {
  LaunchBitcoinBlockHeight : Z;
  OpeningBalancesSnapshotHash : string;
  ContractHashes : ContractHashes.t;
  Producers : list ProducerDef
}.

(** Modelled from the spec: the declarations of [Config] and
    [ContractLocation] are in a file of the repository that is not among
    the sources; the fields are those that [loadLaunchFile] and [main]
    read, which the spec lists as the API and wallet endpoint addresses,
    the snapshot file path and the four contract code/ABI path pairs. *)
Record ContractLocation := mkContractLocation {
  CodePath : string;
  ABIPath : string
}.

Module Contracts.
Record t := mk {
  BIOS : ContractLocation;
  System : ContractLocation;
  Msig : ContractLocation;
  Token : ContractLocation
}.
End Contracts.

Module ProducerConfig.
Record t := mk { apiAddressURL : string; walletAddressURL : string }.
End ProducerConfig.

Module OpeningBalances.
Record t := mk { SnapshotPath : string }.
End OpeningBalances.

Record Config := mkConfig {
  Producer : ProducerConfig.t;
  OpeningBalances : OpeningBalances.t;
  Contracts : Contracts.t
}.

Record contractCompare := mkContractCompare {
  location : ContractLocation;
  hash : string
}.

Definition newCC (loc : ContractLocation) (hash : string) : contractCompare :=
  mkContractCompare loc hash.

(** ** The environment of a run

    Everything the code asks of the outside: the file system as seen by
    [ioutil.ReadFile], the YAML decoder (given the bytes and the current
    value of the pointer it decodes into, it gives the pointer's new
    value and an error), the order in which [range] visits the entries of
    a map, and the results of the calls [main] makes into the rest of the
    repository and the chain client. *)
Record World := mkWorld {
  ReadFile : string -> bytes * option error;
  yamlUnmarshal : bytes -> option LaunchData -> option LaunchData * option error;
  rangeOrder : list (string * contractCompare) -> list (string * contractCompare);
  LoadLocalConfig : string -> option Config * option error;
  WalletPublicKeys : option error;
  NewSnapshot : string -> option error;
  ShuffleProducers : option error;
  Run : option error
}.

(** [range] over a map visits every entry once, in an order of the
    runtime's choosing. *)
Definition range_visits_each_once (w : World) : Prop :=
  forall m, Permutation (rangeOrder w m) m.

Definition readFile (w : World) (filename : string) : M (bytes * option error) :=
  emit (EvReadFile filename) ;;; ret (ReadFile w filename).

(** ** The hasher *)

Definition hashFile (w : World) (filename : string) : M (string * option error) :=
  let h := sha256.New in
  '(cnt, err) <- readFile w filename ;;
  match err with
  | Some e => ret ("", Some e)
  | None =>
      let h := sha256.Write h cnt in
      let s := hex.EncodeToString (sha256.Sum h) in
      emit (EvSum s) ;;; ret (s, None)
  end.

Definition hashCodeFiles (w : World) (code abi : string) : M (string * option error) :=
  let h := sha256.New in
  '(cnt, err) <- readFile w code ;;
  match err with
  | Some e => ret ("", Some e)
  | None =>
      let h := sha256.Write h cnt in
      let h := sha256.Write h (bytes_of_string ":") in
      '(cnt, err) <- readFile w abi ;;
      match err with
      | Some e => ret ("", Some e)
      | None =>
          let h := sha256.Write h cnt in
          let s := hex.EncodeToString (sha256.Sum h) in
          emit (EvSum s) ;;; ret (s, None)
      end
  end.

(** ** The integrity verifier: [loadLaunchFile] *)

Definition printf (format : string) (args : list arg) : M unit :=
  emit (EvPrintf format args).

(** The map literal that the contract loop ranges over. *)
Definition contractMap (config : Config) (out : LaunchData)
  : list (string * contractCompare) :=
  [ ("bios", newCC (Contracts.BIOS (Contracts config))
                   (ContractHashes.BIOS (ContractHashes out)));
    ("system", newCC (Contracts.System (Contracts config))
                     (ContractHashes.System (ContractHashes out)));
    ("msig", newCC (Contracts.Msig (Contracts config))
                   (ContractHashes.Msig (ContractHashes out)));
    ("token", newCC (Contracts.Token (Contracts config))
                    (ContractHashes.Token (ContractHashes out))) ].

(** The body of the loop for one entry: [Some e] when the body returns
    [nil, e] from [loadLaunchFile], [None] when it falls through to the
    next entry. *)
Definition checkContract (w : World) (entry : string * contractCompare)
  : M (option error) :=
  let '(name, cmp) := entry in
  '(codeHash, err) <- hashCodeFiles w (CodePath (location cmp)) (ABIPath (location cmp)) ;;
  match err with
  | Some e =>
      ret (Some (Errorf "error hashing %q contract's code + abi: %s"
                        [AString name; AError e]))
  | None =>
      printf "Hash of %q and %q: %s\n"
             [AString (CodePath (location cmp)); AString (ABIPath (location cmp));
              AString codeHash] ;;;
      if negb (String.eqb codeHash (hash cmp))
      then ret (Some (Errorf "%q contract's code hash don't match" [AString name]))
      else ret None
  end.

Fixpoint rangeContracts (w : World) (entries : list (string * contractCompare))
  : M (option error) :=
  match entries with
  | [] => ret None
  | entry :: rest =>
      r <- checkContract w entry ;;
      match r with
      | Some e => ret (Some e)
      | None => rangeContracts w rest
      end
  end.

Definition loadLaunchFile (w : World) (filename : string) (config : option Config)
  : M (option LaunchData * option error) :=
  '(cnt, err) <- readFile w filename ;;
  match err with
  | Some e => ret (None, Some e)
  | None =>
  let '(out, err) := yamlUnmarshal w cnt None in
  match err with
  | Some e => ret (None, Some e)
  | None =>
  ld <- deref out ;;
  if Z.eqb (LaunchBitcoinBlockHeight ld) 0
  then ret (None, Some (Errorf "launch_btc_block_height unspecified (or 0)" []))
  else
  cfg <- deref config ;;
  let snapshotPath := OpeningBalances.SnapshotPath (OpeningBalances cfg) in
  '(snapshotHash, err) <- hashFile w snapshotPath ;;
  match err with
  | Some e => ret (None, Some e)
  | None =>
  printf "Hash of %q: %s\n" [AString snapshotPath; AString snapshotHash] ;;;
  if negb (String.eqb snapshotHash (OpeningBalancesSnapshotHash ld))
  then ret (None, Some (Errorf "snapshot hash doesn't match launch data" []))
  else
  r <- rangeContracts w (rangeOrder w (contractMap cfg ld)) ;;
  match r with
  | Some e => ret (None, Some e)
  | None => ret (out, None)
  end
  end
  end
  end.

(** ** The orchestrator: [main] *)

Definition Fatalln {A} (args : list arg) : M A := (Exit 1, [EvFatal args]).

Definition Fatalf {A} (format : string) (args : list arg) : M A :=
  (Exit 1, [EvFatalf format args]).

Definition main (w : World) (localConfig launchData : string) : M unit :=
  if (String.eqb localConfig "" || String.eqb launchData "")%bool
  then Fatalln [AString "missing --launch-data or --local-config"]
  else
  emit (EvLoadLocalConfig localConfig) ;;;
  let '(config, err) := LoadLocalConfig w localConfig in
  match err with
  | Some e => Fatalln [AString "local config load error:"; AError e]
  | None =>
  '(launch, err) <- loadLaunchFile w launchData config ;;
  match err with
  | Some e => Fatalln [AString "launch data error:"; AError e]
  | None =>
  _ <- deref launch ;;
  cfg <- deref config ;;
  emit (EvNewAPI (ProducerConfig.apiAddressURL (Producer cfg))) ;;;
  emit (EvNewAPI (ProducerConfig.walletAddressURL (Producer cfg))) ;;;
  emit (EvNewWalletSigner "default") ;;;
  emit EvSetSigner ;;;
  emit EvWalletPublicKeys ;;;
  match WalletPublicKeys w with
  | Some e => Fatalf "Wallet node not accessible: %s" [AError e]
  | None =>
  emit (EvNewSnapshot (OpeningBalances.SnapshotPath (OpeningBalances cfg))) ;;;
  match NewSnapshot w (OpeningBalances.SnapshotPath (OpeningBalances cfg)) with
  | Some e => Fatalln [AString "Failed loading snapshot csv:"; AError e]
  | None =>
  emit EvNewBIOS ;;;
  emit EvShuffleProducers ;;;
  match ShuffleProducers w with
  | Some e => Fatalln [AString "Failed shuffling:"; AError e]
  | None =>
  emit EvRun ;;;
  match Run w with
  | Some e => Fatalf "ERROR RUNNING BIOS: %s" [AError e]
  | None => printf "Done at %s (UTC %s)\n" [ANow; ANow]
  end
  end
  end
  end
  end
  end.

(** The events that reach the network or the shuffle: creating a chain
    client, querying the wallet, shuffling, running the boot sequence. *)
Definition network_or_shuffle (e : Event) : bool :=
  match e with
  | EvNewAPI _ | EvNewWalletSigner _ | EvSetSigner | EvWalletPublicKeys
  | EvNewBIOS | EvShuffleProducers | EvRun => true
  | _ => false
  end.

(** The errors [loadLaunchFile] constructs. *)
Definition errHeight : error :=
  Errorf "launch_btc_block_height unspecified (or 0)" [].

Definition errSnapshot : error :=
  Errorf "snapshot hash doesn't match launch data" [].

Definition errHashing (name : string) (e : error) : error :=
  Errorf "error hashing %q contract's code + abi: %s" [AString name; AError e].

Definition errMismatch (name : string) : error :=
  Errorf "%q contract's code hash don't match" [AString name].

(** The lines [loadLaunchFile] prints. *)
Definition printedSnapshot (path digest : string) : Event :=
  EvPrintf "Hash of %q: %s\n" [AString path; AString digest].

Definition printedContract (code abi digest : string) : Event :=
  EvPrintf "Hash of %q and %q: %s\n" [AString code; AString abi; AString digest].

(** The events of [loadLaunchFile] up to the snapshot comparison. *)
Definition snapshotPrefix (filename snapshotPath digest : string) : list Event :=
  [EvReadFile filename; EvReadFile snapshotPath; EvSum digest;
   printedSnapshot snapshotPath digest].

(** Events that stay on the local machine. *)
Definition local_trace (t : list Event) : Prop :=
  Forall (fun e => network_or_shuffle e = false) t.

(** The digest string of a hasher call that returned. *)
Definition returned_digest (o : outcome (string * option error)) : string :=
  match o with
  | Ret (s, _) => s
  | _ => ""
  end.

(** What the verifier compares: the digest a hasher returns against the
    value the manifest declares. *)
Definition snapshot_matches (w : World) (cfg : Config) (ld : LaunchData) : Prop :=
  result (hashFile w (OpeningBalances.SnapshotPath (OpeningBalances cfg)))
  = Ret (OpeningBalancesSnapshotHash ld, None).

Definition contract_matches (w : World) (entry : string * contractCompare) : Prop :=
  result (hashCodeFiles w (CodePath (location (snd entry)))
                          (ABIPath (location (snd entry))))
  = Ret (hash (snd entry), None).

(** Every digest that a hasher finalised appears as an argument of a
    printed line. *)
Definition sums_printed (t : list Event) : Prop :=
  forall d, In (EvSum d) t ->
  exists format args, In (EvPrintf format args) t /\ In (AString d) args.

(** ** unicode/utf8, strings and fmt, as far as [String] uses them *)

Module utf8.

(** The information [first] keeps for a leading byte: [xx] for a byte
    that starts no rune, otherwise the size in the low three bits and the
    index of the accepted range of the second byte above them. *)
Definition xx : Z := 0xF1.

Definition first (c : Z) : Z :=
  (if c <? 0x80 then 0xF0
   else if c <? 0xC2 then xx
   else if c <? 0xE0 then 0x02
   else if c =? 0xE0 then 0x13
   else if c <? 0xED then 0x03
   else if c =? 0xED then 0x23
   else if c <? 0xF0 then 0x03
   else if c =? 0xF0 then 0x34
   else if c <? 0xF4 then 0x04
   else if c =? 0xF4 then 0x44
   else xx)%Z.

Definition acceptRanges (i : Z) : Z * Z :=
  (if i =? 0 then (0x80, 0xBF)
   else if i =? 1 then (0xA0, 0xBF)
   else if i =? 2 then (0x80, 0x9F)
   else if i =? 3 then (0x90, 0xBF)
   else (0x80, 0x8F))%Z.

(** The bytes one turn of the loop of [RuneCountInString] advances by,
    at a byte [c] followed by [rest]. *)
Definition runeSize (c : Z) (rest : list Z) : nat :=
  (if c <? 0x80 then 1%nat
   else
     let x := first c in
     if x =? xx then 1%nat
     else
       let size := Z.land x 7 in
       if Z.of_nat (List.length rest) + 1 <? size then 1%nat
       else
         let '(lo, hi) := acceptRanges (Z.shiftr x 4) in
         let c1 := nth 0 rest 0 in
         if (c1 <? lo) || (hi <? c1) then 1%nat
         else if size =? 2 then 2%nat
         else
           let c2 := nth 1 rest 0 in
           if (c2 <? 0x80) || (0xBF <? c2) then 1%nat
           else if size =? 3 then 3%nat
           else
             let c3 := nth 2 rest 0 in
             if (c3 <? 0x80) || (0xBF <? c3) then 1%nat else 4%nat)%Z.

(** The loop: [skip] bytes of the current rune are still to be passed. *)
Fixpoint count (skip : nat) (s : list Z) : nat :=
  match s with
  | [] => O
  | c :: rest =>
      match skip with
      | S k => count k rest
      | O => S (count (runeSize c rest - 1) rest)
      end
  end.

Definition RuneCountInString (s : string) : nat :=
  count 0 (map (fun a => Z.of_nat (nat_of_ascii a)) (list_ascii_of_string s)).

End utf8.

Module strings.

Fixpoint Join (elems : list string) (sep : string) : string :=
  match elems with
  | [] => ""
  | [a] => a
  | a :: rest => String.append a (String.append sep (Join rest sep))
  end.

End strings.

Module fmt.

Fixpoint spaces (n : nat) : string :=
  match n with
  | O => ""
  | S k => String " " (spaces k)
  end.

(** [%Ns] (and [% Ns]: the space flag does nothing to a string): the
    string, with spaces before it up to a width of [wid] runes. *)
Definition padString (wid : nat) (s : string) : string :=
  String.append (spaces (wid - utf8.RuneCountInString s)) s.

End fmt.

(** The method [String] of a pointer to [ProducerDef]. *)
Definition ProducerDef_String (p : option ProducerDef) : M string :=
  d <- deref p ;;
  ret (String.append "Account: "
        (String.append (fmt.padString 15 (AccountName d))
        (String.append "  Keybase: https://keybase.io/"
        (String.append (KeybaseUser d)
        (String.append "     Org: "
        (String.append (fmt.padString 30 (OrganizationName d))
        (String.append " URL: " (strings.Join (URLs d) ", ")))))))).

(** ** Views of the model used to state properties *)

(** What [main] does once the launch data is loaded: the text of [main]
    from the creation of the API client on. *)
Definition boot (w : World) (cfg : Config) : M unit :=
  emit (EvNewAPI (ProducerConfig.apiAddressURL (Producer cfg))) ;;;
  emit (EvNewAPI (ProducerConfig.walletAddressURL (Producer cfg))) ;;;
  emit (EvNewWalletSigner "default") ;;;
  emit EvSetSigner ;;;
  emit EvWalletPublicKeys ;;;
  match WalletPublicKeys w with
  | Some e => Fatalf "Wallet node not accessible: %s" [AError e]
  | None =>
  emit (EvNewSnapshot (OpeningBalances.SnapshotPath (OpeningBalances cfg))) ;;;
  match NewSnapshot w (OpeningBalances.SnapshotPath (OpeningBalances cfg)) with
  | Some e => Fatalln [AString "Failed loading snapshot csv:"; AError e]
  | None =>
  emit EvNewBIOS ;;;
  emit EvShuffleProducers ;;;
  match ShuffleProducers w with
  | Some e => Fatalln [AString "Failed shuffling:"; AError e]
  | None =>
  emit EvRun ;;;
  match Run w with
  | Some e => Fatalf "ERROR RUNNING BIOS: %s" [AError e]
  | None => printf "Done at %s (UTC %s)\n" [ANow; ANow]
  end
  end
  end
  end.

(** The same environment with another iteration order, and with another
    decoder. *)
Definition withRangeOrder (w : World)
    (order : list (string * contractCompare) -> list (string * contractCompare))
  : World :=
  mkWorld (ReadFile w) (yamlUnmarshal w) order (LoadLocalConfig w)
          (WalletPublicKeys w) (NewSnapshot w) (ShuffleProducers w) (Run w).

Definition withUnmarshal (w : World)
    (decode : bytes -> option LaunchData -> option LaunchData * option error)
  : World :=
  mkWorld (ReadFile w) decode (rangeOrder w) (LoadLocalConfig w)
          (WalletPublicKeys w) (NewSnapshot w) (ShuffleProducers w) (Run w).

Definition setProducers (ps : list ProducerDef) (ld : LaunchData) : LaunchData :=
  mkLaunchData (LaunchBitcoinBlockHeight ld) (OpeningBalancesSnapshotHash ld)
               (ContractHashes ld) ps.

(** The decoder of [w], its manifests given the producers [ps] instead. *)
Definition decodeWithProducers (ps : list ProducerDef) (w : World)
  : bytes -> option LaunchData -> option LaunchData * option error :=
  fun cnt out =>
    let '(o, e) := yamlUnmarshal w cnt out in (option_map (setProducers ps) o, e).

(** The events of one turn of the contract loop that finalises [digest]. *)
Definition contractEvents (digest : string) (entry : string * contractCompare)
  : list Event :=
  let code := CodePath (location (snd entry)) in
  let abi := ABIPath (location (snd entry)) in
  [EvReadFile code; EvReadFile abi; EvSum digest; printedContract code abi digest].

(** The digest that the loop body compares for an entry whose files are
    both readable. *)
Definition contractDigest (c a : bytes) : string :=
  hex.EncodeToString (sha256.Sum256 (c ++ bytes_of_string ":" ++ a)).

(** The events of the turns of the loop that pass. *)
Definition passedEvents (entries : list (string * contractCompare)) : list Event :=
  flat_map (fun entry => contractEvents (hash (snd entry)) entry) entries.

(** A digest as [hex.EncodeToString] writes a SHA-256 value: 64
    characters, each a decimal digit or a lower-case letter a to f. *)
Definition lower_hex64 (s : string) : Prop :=
  String.length s = 64%nat
  /\ Forall (fun c => In c hex.hextable) (list_ascii_of_string s).

(** The events of [main] from the creation of the API client to the
    wallet query. *)
Definition clientEvents (cfg : Config) : list Event :=
  [EvNewAPI (ProducerConfig.apiAddressURL (Producer cfg));
   EvNewAPI (ProducerConfig.walletAddressURL (Producer cfg));
   EvNewWalletSigner "default"; EvSetSigner; EvWalletPublicKeys].

(** The events [loadLaunchFile] can perform. *)
Definition is_verifier_event (e : Event) : bool :=
  match e with
  | EvReadFile _ | EvSum _ | EvPrintf _ _ => true
  | _ => false
  end.

(** The events of [main] after the loading: those that reach the network
    or the shuffle, and the loading of the snapshot. *)
Definition is_boot_event (e : Event) : bool :=
  network_or_shuffle e
  || match e with EvNewSnapshot _ => true | _ => false end.

(** The last line of a run that completes. *)
Definition printedDone : Event := EvPrintf "Done at %s (UTC %s)\n" [ANow; ANow].

(** The fatal log lines of [main]. *)

Definition is_fatal (e : Event) : bool :=
  match e with
  | EvFatal _ | EvFatalf _ _ => true
  | _ => false
  end.

(** A string of bytes below 0x80 only. *)
Definition isASCII (s : string) : Prop :=
  Forall (fun a => (nat_of_ascii a < 128)%nat) (list_ascii_of_string s).

(** ** Concrete runs

    A small launch: a snapshot, four contracts, a manifest that declares
    their digests, and an environment in which every call into the chain
    client succeeds. *)

Module Fixture.

Definition noSuchFile (path : string) : error :=
  ExternalError (String.append "open " (String.append path ": no such file or directory")).

Fixpoint lookupFile (files : list (string * string)) (path : string) : option string :=
  match files with
  | [] => None
  | (name, cnt) :: rest => if String.eqb name path then Some cnt else lookupFile rest path
  end.

Definition fileSystem (files : list (string * string)) (path : string)
  : bytes * option error :=
  match lookupFile files path with
  | Some cnt => (bytes_of_string cnt, None)
  | None => ([], Some (noSuchFile path))
  end.

Definition files : list (string * string) :=
  [ ("launch.yaml", "launch_btc_block_height: 500000");
    ("snapshot.csv", "alice,100");
    ("bios.wasm", "bios-code"); ("bios.abi", "bios-abi");
    ("system.wasm", "system-code"); ("system.abi", "system-abi");
    ("msig.wasm", "msig-code"); ("msig.abi", "msig-abi");
    ("token.wasm", "token-code"); ("token.abi", "token-abi") ].

Definition config : Config :=
  mkConfig
    (ProducerConfig.mk "http://localhost:8888" "http://localhost:6666")
    (OpeningBalances.mk "snapshot.csv")
    (Contracts.mk (mkContractLocation "bios.wasm" "bios.abi")
                  (mkContractLocation "system.wasm" "system.abi")
                  (mkContractLocation "msig.wasm" "msig.abi")
                  (mkContractLocation "token.wasm" "token.abi")).

Definition producer (name : string) : ProducerDef :=
  mkProducerDef name
    (ProducerAuthority.mk (eos.mkAuthority [] []) (eos.mkAuthority [] []))
    (ecc.mkPublicKey []) "" "" "" [].

Definition hashes : ContractHashes.t :=
  ContractHashes.mk
    "7258d9b176dcf57e2db78ceea3121346e5c7f507c8f3220dc45a3269f6af3ff9"
    "f37a8893e440dc103922e267daa42b8d45079baa789b9646470972d22c5c0546"
    "6c7985e256ea0e5592b04951a505df08de1d108abf4813bb9c6b184cd3038783"
    "420fb5d1b92bee829d640635c7b6ec91920bdb01b9a6d6c1fdadb00c3caafb55".

Definition snapshotHash : string :=
  "e7941b7dd517c6b9d93fc3c6edb6d5fa44dd358df5fe4943bb847e901c0aea8f".

Definition manifest : LaunchData :=
  mkLaunchData 500000 snapshotHash hashes [producer "eosio.aaa"; producer "eosio.bbb"].

(** The same launch with the block height left out. *)
Definition manifestNoHeight : LaunchData :=
  mkLaunchData 0 snapshotHash hashes [producer "eosio.aaa"; producer "eosio.bbb"].

(** The same launch with one account name declared twice. *)
Definition manifestDuplicate : LaunchData :=
  mkLaunchData 500000 snapshotHash hashes [producer "eosio.aaa"; producer "eosio.aaa"].

Definition world (fs : list (string * string)) (ld : LaunchData)
    (order : list (string * contractCompare) -> list (string * contractCompare))
  : World :=
  mkWorld (fileSystem fs) (fun _ _ => (Some ld, None)) order
          (fun _ => (Some config, None)) None (fun _ => None) None None.

Definition inOrder (m : list (string * contractCompare)) := m.

(** Everything as agreed. *)
Definition agreed : World := world files manifest inOrder.

(** One byte of the snapshot changed. *)
Definition snapshotAltered : World :=
  world (("snapshot.csv", "alice,101") :: files) manifest inOrder.

(** The code of two contracts, bios and system, changed. *)
Definition twoAlteredFiles : list (string * string) :=
  ("bios.wasm", "bios-codE") :: ("system.wasm", "system-codE") :: files.

Definition twoAltered
    (order : list (string * contractCompare) -> list (string * contractCompare))
  : World :=
  world twoAlteredFiles manifest order.

(** The ABI of the msig contract is missing. *)
Definition abiMissing : World :=
  world (filter (fun f => negb (String.eqb (fst f) "msig.abi")) files) manifest inOrder.

(** The manifest without a block height, over the agreed files. *)
Definition heightMissing : World := world files manifestNoHeight inOrder.

(** The manifest that declares an account twice, over the agreed files. *)
Definition duplicated : World := world files manifestDuplicate inOrder.

(** An empty file and a file that holds the single byte ':'. *)
Definition colonFiles : World :=
  world [("empty", ""); ("colon", ":")] manifest inOrder.

(** The agreed launch with chosen results of the calls [main] makes after
    loading: the wallet query, the snapshot loader, the shuffle, the run. *)
Definition services (wallet snapshot shuffle run : option error) : World :=
  mkWorld (fileSystem files) (fun _ _ => (Some manifest, None)) inOrder
          (fun _ => (Some config, None)) wallet (fun _ => snapshot) shuffle run.

Definition unreachable : error := ExternalError "connection refused".

(** A producer with a short name and two URLs. *)
Definition acme : ProducerDef :=
  mkProducerDef "eosio.acme"
    (ProducerAuthority.mk (eos.mkAuthority [] []) (eos.mkAuthority [] []))
    (ecc.mkPublicKey []) "acmekb" "" "Acme Block Producers"
    ["https://acme.example"; "https://twitter.com/acme"].

(** The agreed files and one more that holds bios' code, ':' and ABI. *)
Definition withJoined : World :=
  world (("both", "bios-code:bios-abi") :: files) manifest inOrder.

(** Only the ABI of bios is there. *)
Definition codeMissing : World :=
  world [("bios.abi", "bios-abi")] manifest inOrder.

(** A pair of files that both hold a ':' byte and differ in length. *)
Definition colonInside : World :=
  world [("t.wasm", "asm:v1"); ("t.abi", "{version:eosio::abi/1.0}")]
        manifest inOrder.

(** The agreed launch with an empty manifest file, which the decoder
    leaves as a nil pointer without an error. *)
Definition emptyManifest : World :=
  withUnmarshal (world (("launch.yaml", "") :: files) manifest inOrder)
    (fun cnt _ => match cnt with
                  | [] => (None, None)
                  | _ :: _ => (Some manifest, None)
                  end).

(** Two pairs that differ in the side of the boundary a ':' is on. *)
Definition shifted : World :=
  world [("c1", "code:"); ("a1", "abi"); ("c2", "code"); ("a2", ":abi")]
        manifest inOrder.

End Fixture.

(** * Properties of the hasher *)

Section Hasher.

(** The computed table is Go's: 64 words, from 0x428a2f98 to 0xc67178f2. *)
Example K_table_ends :
  List.length sha256._K = 64%nat
  /\ nth 0 sha256._K 0%Z = 0x428a2f98%Z
  /\ nth 1 sha256._K 0%Z = 0x71374491%Z
  /\ nth 62 sha256._K 0%Z = 0xbef9a3f7%Z
  /\ nth 63 sha256._K 0%Z = 0xc67178f2%Z.
Proof. vm_compute. repeat split. Qed.

(** The model of SHA-256 agrees with the published test vectors. *)
Example sha256_empty :
  hex.EncodeToString (sha256.Sum256 [])
  = "e3b0c44298fc1c149afbf4c8996fb92427ae41e4649b934ca495991b7852b855".
Proof. vm_compute. reflexivity. Qed.

Example sha256_abc :
  hex.EncodeToString (sha256.Sum256 (bytes_of_string "abc"))
  = "ba7816bf8f01cfea414140de5dae2223b00361a396177a9cb410ff61f20015ad".
Proof. vm_compute. reflexivity. Qed.

Example sha256_two_blocks :
  hex.EncodeToString (sha256.Sum256 (bytes_of_string
    "abcdbcdecdefdefgefghfghighijhijkijkljklmklmnlmnomnopnopq"))
  = "248d6a61d20638b8e5c026930c3e6039a33ce45964ff2167f6ecedd419db06c1".
Proof. vm_compute. reflexivity. Qed.

Lemma Write_app (d : sha256.digest) (a b : bytes) :
  sha256.Write (sha256.Write d a) b = sha256.Write d (a ++ b).
Proof. unfold sha256.Write. now rewrite fold_left_app. Qed.

Lemma length_be_bytes (n : nat) (v : Z) : List.length (sha256.be_bytes n v) = n.
Proof.
  unfold sha256.be_bytes.
  now rewrite length_map, length_rev, length_seq.
Qed.

Lemma length_Sum (d : sha256.digest) : List.length (sha256.Sum d) = 32%nat.
Proof.
  unfold sha256.Sum, sha256.out_bytes.
  repeat rewrite length_app. repeat rewrite length_be_bytes. reflexivity.
Qed.

Lemma length_Sum256 (p : bytes) : List.length (sha256.Sum256 p) = 32%nat.
Proof. apply length_Sum. Qed.

Lemma length_EncodeToString (src : bytes) :
  String.length (hex.EncodeToString src) = (2 * List.length src)%nat.
Proof.
  induction src as [|b rest IH]; simpl; [reflexivity|].
  rewrite IH. lia.
Qed.

Lemma decodeByte_digits (b : byte) :
  hex.decodeByte (hex.digit (Z.shiftr (Z_of_byte b) 4))
                    (hex.digit (Z.land (Z_of_byte b) 15)) = Some b.
Proof. destruct b; vm_compute; reflexivity. Qed.

Lemma EncodeToString_inj (a b : bytes) :
  hex.EncodeToString a = hex.EncodeToString b -> a = b.
Proof.
  revert b. induction a as [|x a IH]; intros [|y b] H; simpl in H;
    try discriminate; [reflexivity|].
  injection H as H1 H2 H3.
  pose proof (decodeByte_digits x) as Dx.
  pose proof (decodeByte_digits y) as Dy.
  rewrite H1, H2 in Dx. rewrite Dx in Dy. injection Dy as ->.
  f_equal. now apply IH.
Qed.

(** Two lists that agree after prefixes of the same length have the same
    prefixes. *)
Lemma app_same_length_prefix {A} (l1 l2 r1 r2 : list A) :
  List.length l1 = List.length l2 -> (l1 ++ r1 = l2 ++ r2)%list -> l1 = l2.
Proof.
  revert l2. induction l1 as [|a l1 IH]; intros [|b l2] Hlen H;
    simpl in *; try discriminate; [reflexivity|].
  injection H as -> H. f_equal. apply IH; [lia | assumption].
Qed.

(** The first occurrence of a separator fixes the prefix before it. *)
Lemma app_first_separator {A} (c : A) (l1 l2 r1 r2 : list A) :
  ~ In c l1 -> ~ In c l2 ->
  (l1 ++ c :: r1 = l2 ++ c :: r2)%list -> l1 = l2.
Proof.
  revert l2. induction l1 as [|a l1 IH]; intros [|b l2] N1 N2 H; simpl in *.
  - reflexivity.
  - injection H as -> _. exfalso. apply N2. now left.
  - injection H as -> _. exfalso. apply N1. now left.
  - injection H as -> H. f_equal. apply IH; auto.
Qed.

Lemma delimited_neq_plain (a b : bytes) :
  (a ++ bytes_of_string ":" ++ b <> a ++ b)%list.
Proof.
  intros H. apply (f_equal (@List.length byte)) in H.
  repeat rewrite length_app in H. simpl in H. lia.
Qed.

(** Of two lists that agree after their prefixes, the longer prefix is
    the shorter one and then the start of what follows it. *)
Lemma app_shorter_prefix {A} (l1 l2 r1 r2 : list A) :
  (List.length l1 < List.length l2)%nat ->
  (l1 ++ r1 = l2 ++ r2)%list ->
  exists x r, l2 = (l1 ++ x :: r)%list /\ r1 = (x :: r ++ r2)%list.
Proof.
  revert l2. induction l1 as [|a l1 IH]; intros [|b l2] Hlen H;
    simpl in *; try lia.
  - exists b, l2. split; [reflexivity | exact H].
  - injection H as -> H.
    destruct (IH l2 ltac:(lia) H) as (x & r & -> & ->).
    exists x, r. split; reflexivity.
Qed.

(** The streams of a call and of the swapped call are the same only for
    equal files, or when one file is the other, a ':' byte and more. *)
Lemma delimited_swap_neq (a b : bytes) :
  a <> b ->
  ~ (exists r, b = a ++ x3a :: r)%list ->
  ~ (exists r, a = b ++ x3a :: r)%list ->
  (a ++ bytes_of_string ":" ++ b <> b ++ bytes_of_string ":" ++ a)%list.
Proof.
  intros Hne Hab Hba H.
  change (bytes_of_string ":" ++ b)%list with (x3a :: b) in H.
  change (bytes_of_string ":" ++ a)%list with (x3a :: a) in H.
  destruct (Nat.lt_trichotomy (List.length a) (List.length b)) as [L|[L|L]].
  - destruct (app_shorter_prefix _ _ _ _ L H) as (x & r & Hb & Hx).
    injection Hx as <- _. apply Hab. now exists r.
  - apply Hne. eapply app_same_length_prefix; eauto.
  - symmetry in H.
    destruct (app_shorter_prefix _ _ _ _ L H) as (x & r & Ha & Hx).
    injection Hx as <- _. apply Hba. now exists r.
Qed.

(** Files of the same length, and files without a ':' byte, are not one
    the other followed by a ':' byte and more. *)
Lemma not_colon_extension (a b : bytes) :
  List.length a = List.length b \/ ~ In x3a b ->
  ~ (exists r, b = a ++ x3a :: r)%list.
Proof.
  intros [Hlen | Hn] [r ->].
  - rewrite length_app in Hlen. simpl in Hlen. lia.
  - apply Hn, in_or_app. right. now left.
Qed.

End Hasher.

Section HasherCalls.

Variable w : World.

(** What [hashFile] does, by the outcome of its one read. *)
Lemma hashFile_eq (filename : string) :
  hashFile w filename
  = match ReadFile w filename with
    | (_, Some e) => (Ret ("", Some e), [EvReadFile filename])
    | (cnt, None) =>
        let s := hex.EncodeToString (sha256.Sum256 cnt) in
        (Ret (s, None), [EvReadFile filename; EvSum s])
    end.
Proof.
  unfold hashFile, readFile, bind, emit, ret.
  destruct (ReadFile w filename) as [cnt [e|]]; reflexivity.
Qed.

(** What [hashCodeFiles] does, by the outcomes of its two reads. *)
Lemma hashCodeFiles_eq (code abi : string) :
  hashCodeFiles w code abi
  = match ReadFile w code with
    | (_, Some e) => (Ret ("", Some e), [EvReadFile code])
    | (c, None) =>
        match ReadFile w abi with
        | (_, Some e) => (Ret ("", Some e), [EvReadFile code; EvReadFile abi])
        | (a, None) =>
            let s := hex.EncodeToString
                       (sha256.Sum256 (c ++ bytes_of_string ":" ++ a)) in
            (Ret (s, None), [EvReadFile code; EvReadFile abi; EvSum s])
        end
    end.
Proof.
  unfold hashCodeFiles, readFile, bind, emit, ret.
  destruct (ReadFile w code) as [c [e|]]; [reflexivity|].
  destruct (ReadFile w abi) as [a [e|]]; [reflexivity|].
  unfold sha256.Sum256. rewrite <- !Write_app. reflexivity.
Qed.

End HasherCalls.

(** From here on the digest function is used through the two equations
    above only. *)
Opaque sha256.Sum256.

(** The digests of the files of the fixture, as the manifest declares
    them. *)
Lemma snapshot_digest :
  hex.EncodeToString (sha256.Sum256 (bytes_of_string "alice,100"))
  = Fixture.snapshotHash.
Proof. vm_compute. reflexivity. Qed.

(** C5: for a readable file, [hashFile] returns the hex-encoded SHA-256 of
    the file's bytes, 64 characters long, with no error; all it does is
    read that file (and finalise the digest); any file with the same
    bytes, under any name and in any environment, gets the same digest. *)
Theorem hashFile_digest (w : World) (filename : string) (cnt : bytes) :
  ReadFile w filename = (cnt, None) ->
  let s := hex.EncodeToString (sha256.Sum256 cnt) in
  hashFile w filename = (Ret (s, None), [EvReadFile filename; EvSum s])
  /\ String.length s = 64%nat
  /\ forall w' filename',
       ReadFile w' filename' = (cnt, None) ->
       result (hashFile w' filename') = result (hashFile w filename).
Proof.
  intros H s. split; [|split].
  - rewrite hashFile_eq, H. reflexivity.
  - unfold s. rewrite length_EncodeToString.
    rewrite length_Sum256. reflexivity.
  - intros w' filename' H'. rewrite !hashFile_eq, H, H'. reflexivity.
Qed.

Lemma hashFile_digest_witness :
  ReadFile Fixture.agreed "snapshot.csv" = (bytes_of_string "alice,100", None)
  /\ hashFile Fixture.agreed "snapshot.csv"
     = (Ret (Fixture.snapshotHash, None),
        [EvReadFile "snapshot.csv"; EvSum Fixture.snapshotHash])
  /\ String.length Fixture.snapshotHash = 64%nat.
Proof.
  split; [reflexivity|].
  rewrite <- snapshot_digest.
  pose proof (hashFile_digest Fixture.agreed "snapshot.csv"
                (bytes_of_string "alice,100") eq_refl) as H.
  cbv zeta in H. destruct H as (H1 & H2 & _).
  split; [exact H1 | exact H2].
Defined.

(** C6: when a file it is given cannot be read, a hasher returns the
    empty string together with the error of the failed read, and no
    digest is finalised; for the combined hash this holds whichever of
    the two files is unreadable. *)
Theorem hasher_unreadable_no_digest (w : World) :
  (forall filename,
     snd (ReadFile w filename) <> None ->
     exists e, snd (ReadFile w filename) = Some e
       /\ hashFile w filename = (Ret ("", Some e), [EvReadFile filename]))
  /\ (forall code abi,
        snd (ReadFile w code) <> None \/ snd (ReadFile w abi) <> None ->
        exists e,
          (snd (ReadFile w code) = Some e \/ snd (ReadFile w abi) = Some e)
          /\ result (hashCodeFiles w code abi) = Ret ("", Some e)
          /\ forall d, ~ In (EvSum d) (trace (hashCodeFiles w code abi))).
Proof.
  split.
  - intros filename H. rewrite hashFile_eq.
    destruct (ReadFile w filename) as [cnt [e|]]; simpl in *; [|congruence].
    exists e. split; reflexivity.
  - intros code abi H. rewrite hashCodeFiles_eq.
    destruct (ReadFile w code) as [c [e|]]; simpl in *.
    + exists e. repeat split; auto. intros d [D|[]]. discriminate.
    + destruct (ReadFile w abi) as [a [e|]]; simpl in *.
      * exists e. repeat split; auto. intros d [D|[D|[]]]; discriminate.
      * destruct H; congruence.
Qed.

Lemma hasher_unreadable_no_digest_witness :
  hashFile Fixture.abiMissing "msig.abi"
  = (Ret ("", Some (Fixture.noSuchFile "msig.abi")), [EvReadFile "msig.abi"])
  /\ result (hashCodeFiles Fixture.abiMissing "msig.wasm" "msig.abi")
     = Ret ("", Some (Fixture.noSuchFile "msig.abi")).
Proof.
  destruct (hasher_unreadable_no_digest Fixture.abiMissing) as [H1 H2].
  split.
  - destruct (H1 "msig.abi") as (e & He & Hr); [discriminate|].
    injection He as <-. exact Hr.
  - destruct (H2 "msig.wasm" "msig.abi") as (e & He & Hr & _);
      [right; discriminate|].
    destruct He as [He|He]; [discriminate He|].
    injection He as <-. exact Hr.
Defined.

(** The digests of the four contracts of the fixture. *)
Lemma contract_digests :
  hex.EncodeToString (sha256.Sum256 (bytes_of_string "bios-code:bios-abi"))
  = ContractHashes.BIOS Fixture.hashes
  /\ hex.EncodeToString (sha256.Sum256 (bytes_of_string "system-code:system-abi"))
     = ContractHashes.System Fixture.hashes
  /\ hex.EncodeToString (sha256.Sum256 (bytes_of_string "msig-code:msig-abi"))
     = ContractHashes.Msig Fixture.hashes
  /\ hex.EncodeToString (sha256.Sum256 (bytes_of_string "token-code:token-abi"))
     = ContractHashes.Token Fixture.hashes.
Proof. vm_compute. repeat split. Qed.

(** C4, as stated, fails: an empty file and a file holding the single
    byte ':' differ, yet hashing them in either order feeds the hasher the
    same two bytes and gives the same digest. *)
Lemma hashCodeFiles_swap_same_digest :
  ~ (forall w a b ca cb,
       ReadFile w a = (ca, None) -> ReadFile w b = (cb, None) -> ca <> cb ->
       result (hashCodeFiles w a b) <> result (hashCodeFiles w b a)).
Proof.
  intros H.
  apply (H Fixture.colonFiles "empty" "colon" [] (bytes_of_string ":"));
    [reflexivity | reflexivity | discriminate |].
  rewrite !hashCodeFiles_eq. simpl. reflexivity.
Qed.

(** C4, amended: the combined hash is the hex-encoded SHA-256 of the code
    file's bytes, one ':' byte, then the ABI file's bytes, in that order.
    That byte stream always differs from the plain concatenation, and it
    differs from the stream of the swapped call whenever the two files
    differ and neither is the other followed by a ':' byte and more
    bytes (so for any two different files of the same length, and any two
    different files of which neither holds a ':' byte).  Two calls return
    the same digest only when SHA-256 maps their streams to the same
    value. *)
Theorem hashCodeFiles_delimited (w : World) (code abi : string) (ca cb : bytes) :
  ReadFile w code = (ca, None) ->
  ReadFile w abi = (cb, None) ->
  let stream := ca ++ bytes_of_string ":" ++ cb in
  let swapped := cb ++ bytes_of_string ":" ++ ca in
  hashCodeFiles w code abi
  = (Ret (hex.EncodeToString (sha256.Sum256 stream), None),
     [EvReadFile code; EvReadFile abi;
      EvSum (hex.EncodeToString (sha256.Sum256 stream))])
  /\ stream <> ca ++ cb
  /\ (ca <> cb ->
      ~ (exists r, cb = ca ++ x3a :: r) ->
      ~ (exists r, ca = cb ++ x3a :: r) ->
      stream <> swapped)
  /\ (ca <> cb ->
      List.length ca = List.length cb \/ (~ In x3a ca /\ ~ In x3a cb) ->
      stream <> swapped)
  /\ (result (hashCodeFiles w code abi) = result (hashCodeFiles w abi code) ->
      sha256.Sum256 stream = sha256.Sum256 swapped)
  /\ (forall plain,
        ReadFile w plain = (ca ++ cb, None) ->
        result (hashFile w plain) = result (hashCodeFiles w code abi) ->
        sha256.Sum256 (ca ++ cb) = sha256.Sum256 stream).
Proof.
  intros Hc Ha stream swapped.
  split; [|split; [|split; [|split; [|split]]]].
  - rewrite hashCodeFiles_eq, Hc, Ha. reflexivity.
  - apply delimited_neq_plain.
  - apply delimited_swap_neq.
  - intros Hne Hcond. apply delimited_swap_neq; [exact Hne | |];
      apply not_colon_extension; destruct Hcond as [Hl | [Na Nb]];
      [left; exact Hl | right; exact Nb | left; symmetry; exact Hl
       | right; exact Na].
  - rewrite !hashCodeFiles_eq, Hc, Ha. unfold result. simpl.
    intros E. apply (f_equal returned_digest) in E. simpl in E.
    now apply EncodeToString_inj.
  - intros plain Hp. rewrite hashFile_eq, hashCodeFiles_eq, Hp, Hc, Ha.
    unfold result. simpl.
    intros E. apply (f_equal returned_digest) in E. simpl in E.
    now apply EncodeToString_inj.
Qed.

Lemma hashCodeFiles_delimited_witness :
  result (hashCodeFiles Fixture.colonInside "t.wasm" "t.abi")
  = Ret (hex.EncodeToString
           (sha256.Sum256
              (bytes_of_string "asm:v1:{version:eosio::abi/1.0}")), None)
  /\ bytes_of_string "asm:v1:{version:eosio::abi/1.0}"
     <> bytes_of_string "{version:eosio::abi/1.0}:asm:v1".
Proof.
  pose proof (hashCodeFiles_delimited Fixture.colonInside "t.wasm" "t.abi"
                (bytes_of_string "asm:v1")
                (bytes_of_string "{version:eosio::abi/1.0}")
                eq_refl eq_refl) as H.
  cbv zeta in H. destruct H as (H1 & _ & H3 & _).
  split.
  - rewrite H1. reflexivity.
  - apply H3; [discriminate | intros [r Hr]; discriminate Hr
               | intros [r Hr]; discriminate Hr].
Defined.

(** * Properties of the integrity verifier *)

Section Verifier.

Variable w : World.

Lemma sums_printed_app (t1 t2 : list Event) :
  sums_printed t1 -> sums_printed t2 -> sums_printed (t1 ++ t2).
Proof.
  intros H1 H2 d Hd. apply in_app_or in Hd.
  destruct Hd as [Hd|Hd]; [destruct (H1 d Hd) as (f & a & Hin & Ha)
                          | destruct (H2 d Hd) as (f & a & Hin & Ha)];
    exists f, a; (split; [apply in_or_app; auto | exact Ha]).
Qed.

Lemma local_trace_app (t1 t2 : list Event) :
  local_trace t1 -> local_trace t2 -> local_trace (t1 ++ t2).
Proof. unfold local_trace. intros. apply Forall_app. auto. Qed.

(** What the loop body does for one entry, by the outcomes of the two
    reads and of the comparison. *)
Lemma checkContract_eq (name : string) (cmp : contractCompare) :
  let code := CodePath (location cmp) in
  let abi := ABIPath (location cmp) in
  checkContract w (name, cmp)
  = match ReadFile w code with
    | (_, Some e) => (Ret (Some (errHashing name e)), [EvReadFile code])
    | (c, None) =>
        match ReadFile w abi with
        | (_, Some e) =>
            (Ret (Some (errHashing name e)), [EvReadFile code; EvReadFile abi])
        | (a, None) =>
            let s := hex.EncodeToString
                       (sha256.Sum256 (c ++ bytes_of_string ":" ++ a)) in
            (Ret (if negb (String.eqb s (hash cmp))
                  then Some (errMismatch name) else None),
             [EvReadFile code; EvReadFile abi; EvSum s; printedContract code abi s])
        end
    end.
Proof.
  intros code abi. unfold checkContract. rewrite hashCodeFiles_eq.
  fold code. fold abi.
  destruct (ReadFile w code) as [c [e|]]; [reflexivity|].
  destruct (ReadFile w abi) as [a [e|]]; [reflexivity|].
  unfold bind, printf, emit, ret. simpl.
  destruct (negb _); reflexivity.
Qed.

(** The loop body always returns; it falls through exactly when the
    contract's digest is the declared one; whatever digest it finalised
    it printed; it touches nothing but files and the standard output. *)
Lemma checkContract_spec (entry : string * contractCompare) :
  exists r t,
    checkContract w entry = (Ret r, t)
    /\ (r = None <-> contract_matches w entry)
    /\ (forall e, r = Some e ->
          e = errMismatch (fst entry) \/ exists e', e = errHashing (fst entry) e')
    /\ sums_printed t
    /\ local_trace t.
Proof.
  destruct entry as [name cmp]. unfold contract_matches. simpl fst. simpl snd.
  rewrite checkContract_eq, hashCodeFiles_eq.
  destruct (ReadFile w (CodePath (location cmp))) as [c [e|]].
  { do 2 eexists. split; [reflexivity|]. unfold result. simpl.
    split; [split; discriminate|].
    split; [intros e0 E; injection E as <-; right; now exists e|].
    split; [intros d [D|[]]; discriminate | repeat constructor]. }
  destruct (ReadFile w (ABIPath (location cmp))) as [a [e|]].
  { do 2 eexists. split; [reflexivity|]. unfold result. simpl.
    split; [split; discriminate|].
    split; [intros e0 E; injection E as <-; right; now exists e|].
    split; [intros d [D|[D|[]]]; discriminate | repeat constructor]. }
  cbv zeta. do 2 eexists. split; [reflexivity|].
  unfold result. simpl fst.
  set (s := hex.EncodeToString _).
  split; [|split; [|split]].
  - destruct (String.eqb_spec s (hash cmp)) as [E|N]; simpl.
    + split; [intros _; now rewrite E | reflexivity].
    + split; [discriminate|].
      intros E. apply (f_equal returned_digest) in E. simpl in E. contradiction.
  - intros e0. destruct (negb _); [|discriminate].
    intros E. injection E as <-. now left.
  - intros d [D|[D|[D|[D|[]]]]]; try discriminate.
    injection D as <-. exists "Hash of %q and %q: %s\n". eexists.
    split; [right; right; right; left; reflexivity|].
    right; right; left; reflexivity.
  - repeat constructor.
Qed.

Lemma rangeContracts_cons (entry : string * contractCompare)
    (rest : list (string * contractCompare)) :
  rangeContracts w (entry :: rest)
  = bind (checkContract w entry)
      (fun r => match r with
                | Some e => ret (Some e)
                | None => rangeContracts w rest
                end).
Proof. reflexivity. Qed.

(** The loop returns at the first entry whose body returns: it ends
    without an error exactly when every entry it visits matches. *)
Lemma rangeContracts_spec (entries : list (string * contractCompare)) :
  exists r t,
    rangeContracts w entries = (Ret r, t)
    /\ (r = None <-> Forall (contract_matches w) entries)
    /\ (forall e, r = Some e ->
          exists entry, In entry entries
            /\ result (checkContract w entry) = Ret (Some e))
    /\ sums_printed t
    /\ local_trace t.
Proof.
  induction entries as [|entry rest IH].
  - exists None, []. split; [reflexivity|].
    split; [split; [constructor | reflexivity]|].
    split; [discriminate|]. split; [intros d []| constructor].
  - rewrite rangeContracts_cons.
    destruct (checkContract_spec entry) as (r1 & t1 & E1 & M1 & S1 & P1 & L1).
    rewrite E1. destruct r1 as [e|].
    + exists (Some e), (t1 ++ []). split; [reflexivity|].
      split; [split; [discriminate|]|].
      { intros F. inversion F as [|? ? Hm _]; subst.
        apply M1 in Hm. discriminate. }
      split.
      { intros e0 E. injection E as <-. exists entry.
        split; [now left | now rewrite E1]. }
      split; [apply sums_printed_app; [exact P1 | intros d []]
             | apply local_trace_app; [exact L1 | constructor]].
    + destruct IH as (r2 & t2 & E2 & M2 & S2 & P2 & L2).
      exists r2, (t1 ++ t2). split; [unfold bind; now rewrite E2|].
      split.
      { rewrite M2. split.
        - intros F. constructor; [now apply M1 | exact F].
        - intros F. now inversion F. }
      split.
      { intros e0 E. destruct (S2 e0 E) as (entry' & Hin & Hs).
        exists entry'. split; [now right | exact Hs]. }
      split; [now apply sums_printed_app | now apply local_trace_app].
Qed.

End Verifier.

Section LoadLaunchFile.

Variable w : World.

(** [loadLaunchFile], by the outcome of each step in the order the code
    takes them. *)
Lemma loadLaunchFile_eq (filename : string) (config : option Config) :
  loadLaunchFile w filename config
  = match ReadFile w filename with
    | (_, Some e) => (Ret (None, Some e), [EvReadFile filename])
    | (cnt, None) =>
    match yamlUnmarshal w cnt None with
    | (_, Some e) => (Ret (None, Some e), [EvReadFile filename])
    | (None, None) => (Panic, [EvReadFile filename])
    | (Some ld, None) =>
    if Z.eqb (LaunchBitcoinBlockHeight ld) 0
    then (Ret (None, Some errHeight), [EvReadFile filename])
    else
    match config with
    | None => (Panic, [EvReadFile filename])
    | Some cfg =>
    let sp := OpeningBalances.SnapshotPath (OpeningBalances cfg) in
    match ReadFile w sp with
    | (_, Some e) => (Ret (None, Some e), [EvReadFile filename; EvReadFile sp])
    | (scnt, None) =>
    let s := hex.EncodeToString (sha256.Sum256 scnt) in
    if negb (String.eqb s (OpeningBalancesSnapshotHash ld))
    then (Ret (None, Some errSnapshot), snapshotPrefix filename sp s)
    else
    match rangeContracts w (rangeOrder w (contractMap cfg ld)) with
    | (Ret (Some e), t) => (Ret (None, Some e), snapshotPrefix filename sp s ++ t)
    | (Ret None, t) => (Ret (Some ld, None), snapshotPrefix filename sp s ++ t)
    | (Panic, t) => (Panic, snapshotPrefix filename sp s ++ t)
    | (Exit c, t) => (Exit c, snapshotPrefix filename sp s ++ t)
    end
    end
    end
    end
    end.
Proof.
  unfold loadLaunchFile, readFile, printf, deref, panic, bind, emit, ret.
  destruct (ReadFile w filename) as [cnt [e|]]; [reflexivity|].
  destruct (yamlUnmarshal w cnt None) as [[ld|] [e|]]; try reflexivity.
  cbv beta iota zeta.
  destruct (Z.eqb (LaunchBitcoinBlockHeight ld) 0); [reflexivity|].
  destruct config as [cfg|]; [|reflexivity].
  cbv beta iota zeta.
  rewrite hashFile_eq.
  destruct (ReadFile w (OpeningBalances.SnapshotPath (OpeningBalances cfg)))
    as [scnt [e|]]; [reflexivity|].
  cbv beta iota zeta.
  destruct (negb _); [reflexivity|].
  destruct (rangeContracts w _) as [[[e|]| |c] t]; simpl;
    rewrite ?app_nil_r; reflexivity.
Qed.


(** How [loadLaunchFile] can end: with an error and a nil manifest; with
    the manifest and no error, every check having passed; or in a panic,
    when the decoder left the manifest pointer nil without an error or the
    configuration pointer is nil.  It never exits the process itself. *)
Lemma loadLaunchFile_outcome (filename : string) (config : option Config) :
  match result (loadLaunchFile w filename config) with
  | Ret (out, Some e) => out = None
  | Ret (out, None) =>
      exists ld cfg cnt,
        out = Some ld /\ config = Some cfg
        /\ ReadFile w filename = (cnt, None)
        /\ yamlUnmarshal w cnt None = (Some ld, None)
        /\ LaunchBitcoinBlockHeight ld <> 0%Z
        /\ snapshot_matches w cfg ld
        /\ Forall (contract_matches w) (rangeOrder w (contractMap cfg ld))
  | Panic =>
      (exists cnt, ReadFile w filename = (cnt, None)
                   /\ yamlUnmarshal w cnt None = (None, None))
      \/ config = None
  | Exit _ => False
  end.
Proof.
  rewrite loadLaunchFile_eq.
  destruct (ReadFile w filename) as [cnt [e|]] eqn:Hr; [reflexivity|].
  destruct (yamlUnmarshal w cnt None) as [[ld|] [e|]] eqn:Hy;
    try reflexivity; [|left; now exists cnt].
  destruct (Z.eqb_spec (LaunchBitcoinBlockHeight ld) 0) as [Hz|Hz]; [reflexivity|].
  destruct config as [cfg|]; [|now right].
  cbv zeta.
  destruct (ReadFile w (OpeningBalances.SnapshotPath (OpeningBalances cfg)))
    as [scnt [e|]] eqn:Hs; [reflexivity|].
  destruct (String.eqb_spec (hex.EncodeToString (sha256.Sum256 scnt))
              (OpeningBalancesSnapshotHash ld)) as [Hd|Hd]; [|reflexivity].
  cbv [negb].
  destruct (rangeContracts_spec w (rangeOrder w (contractMap cfg ld)))
    as (r & t & E & M & _).
  rewrite E. destruct r as [e|]; [reflexivity|].
  exists ld, cfg, cnt. repeat (split; [reflexivity || assumption|]).
  split; [|now apply M].
  unfold snapshot_matches. rewrite hashFile_eq, Hs. cbv zeta.
  unfold result. simpl. now rewrite Hd.
Qed.

(** Whatever digest [loadLaunchFile] finalised it also printed, and all
    it touches is files and the standard output. *)
Lemma loadLaunchFile_trace_facts (filename : string) (config : option Config) :
  sums_printed (trace (loadLaunchFile w filename config))
  /\ local_trace (trace (loadLaunchFile w filename config)).
Proof.
  assert (P1 : forall p, sums_printed [EvReadFile p])
    by (intros p d [D|[]]; discriminate).
  assert (P2 : forall p q, sums_printed [EvReadFile p; EvReadFile q])
    by (intros p q d [D|[D|[]]]; discriminate).
  assert (P3 : forall p q s, sums_printed (snapshotPrefix p q s)).
  { intros p q s d [D|[D|[D|[D|[]]]]]; try discriminate.
    injection D as <-. exists "Hash of %q: %s\n". eexists.
    split; [right; right; right; left; reflexivity|].
    right; left; reflexivity. }
  assert (L3 : forall p q s, local_trace (snapshotPrefix p q s))
    by (intros; repeat constructor).
  rewrite loadLaunchFile_eq.
  destruct (ReadFile w filename) as [cnt [e|]];
    [split; [apply P1 | repeat constructor]|].
  destruct (yamlUnmarshal w cnt None) as [[ld|] [e|]];
    try (split; [apply P1 | repeat constructor]).
  destruct (Z.eqb (LaunchBitcoinBlockHeight ld) 0);
    [split; [apply P1 | repeat constructor]|].
  destruct config as [cfg|]; [|split; [apply P1 | repeat constructor]].
  cbv zeta.
  destruct (ReadFile w (OpeningBalances.SnapshotPath (OpeningBalances cfg)))
    as [scnt [e|]]; [split; [apply P2 | repeat constructor]|].
  destruct (negb _); [split; [apply P3 | apply L3]|].
  destruct (rangeContracts_spec w (rangeOrder w (contractMap cfg ld)))
    as (r & t & E & _ & _ & P & L).
  rewrite E. destruct r as [e|]; unfold trace, snd;
    (split; [apply sums_printed_app; [apply P3 | exact P]
            | apply local_trace_app; [apply L3 | exact L]]).
Qed.

End LoadLaunchFile.

(** When [loadLaunchFile] returns an error, [main] logs it and exits with
    status 1, having done nothing after the call. *)
Lemma main_launch_error (w : World) (localConfig launchData : string)
    (config : option Config) (out : option LaunchData) (e : error)
    (t : list Event) :
  localConfig <> "" -> launchData <> "" ->
  LoadLocalConfig w localConfig = (config, None) ->
  loadLaunchFile w launchData config = (Ret (out, Some e), t) ->
  main w localConfig launchData
  = (Exit 1,
     EvLoadLocalConfig localConfig
       :: t ++ [EvFatal [AString "launch data error:"; AError e]]).
Proof.
  intros H1 H2 Hc Hl. unfold main.
  apply String.eqb_neq in H1. apply String.eqb_neq in H2.
  rewrite H1, H2, Hc. unfold bind, emit. rewrite Hl. reflexivity.
Qed.

(** The digest of the altered snapshot of the fixture. *)
Lemma altered_snapshot_digest :
  hex.EncodeToString (sha256.Sum256 (bytes_of_string "alice,101"))
  = "cf9901496c167acd943466dd498df2117b216b61413ee75d1800b2fb9a351d9b".
Proof. vm_compute. reflexivity. Qed.

(** * The claims about [loadLaunchFile] and [main] *)

(** When the manifest decodes to a document whose
    [launch_btc_block_height] is zero (the value a missing field decodes
    to), [loadLaunchFile] returns that error and a nil manifest having
    done nothing but read the manifest file, and [main] exits on it: no
    file is hashed and no network call is made. *)
Theorem zero_height_rejected_first (w : World) (filename : string)
    (config : option Config) (cnt : bytes) (ld : LaunchData) :
  ReadFile w filename = (cnt, None) ->
  yamlUnmarshal w cnt None = (Some ld, None) ->
  LaunchBitcoinBlockHeight ld = 0%Z ->
  loadLaunchFile w filename config
  = (Ret (None, Some errHeight), [EvReadFile filename])
  /\ forall localConfig,
       localConfig <> "" -> filename <> "" ->
       LoadLocalConfig w localConfig = (config, None) ->
       main w localConfig filename
       = (Exit 1,
          [EvLoadLocalConfig localConfig; EvReadFile filename;
           EvFatal [AString "launch data error:"; AError errHeight]]).
Proof.
  intros Hr Hy Hz.
  assert (E : loadLaunchFile w filename config
              = (Ret (None, Some errHeight), [EvReadFile filename])).
  { rewrite loadLaunchFile_eq, Hr, Hy, Hz. reflexivity. }
  split; [exact E|].
  intros localConfig H1 H2 Hc.
  rewrite (main_launch_error w localConfig filename config None errHeight
             [EvReadFile filename] H1 H2 Hc E).
  reflexivity.
Qed.

Lemma zero_height_rejected_first_witness :
  loadLaunchFile Fixture.heightMissing "launch.yaml" (Some Fixture.config)
  = (Ret (None, Some errHeight), [EvReadFile "launch.yaml"])
  /\ main Fixture.heightMissing "config.yaml" "launch.yaml"
     = (Exit 1,
        [EvLoadLocalConfig "config.yaml"; EvReadFile "launch.yaml";
         EvFatal [AString "launch data error:"; AError errHeight]]).
Proof.
  destruct (zero_height_rejected_first Fixture.heightMissing "launch.yaml"
              (Some Fixture.config)
              (bytes_of_string "launch_btc_block_height: 500000")
              Fixture.manifestNoHeight eq_refl eq_refl eq_refl) as [H1 H2].
  split; [exact H1|].
  apply H2; [discriminate | discriminate | reflexivity].
Defined.

(** C7: a manifest file that the decoder leaves as a nil pointer without
    an error, as it does an empty file, is a manifest without the block
    height, yet [loadLaunchFile] returns no error for it: the test of the
    height at line 74 dereferences the nil pointer and the call panics
    after the read of the file, and so does [main], which logs no launch
    data error and does not exit through [log.Fatalln]. *)
Theorem nil_manifest_panics (w : World) (filename : string)
    (config : option Config) (cnt : bytes) :
  ReadFile w filename = (cnt, None) ->
  yamlUnmarshal w cnt None = (None, None) ->
  loadLaunchFile w filename config = (Panic, [EvReadFile filename])
  /\ (forall out e,
        result (loadLaunchFile w filename config) <> Ret (out, Some e))
  /\ forall localConfig,
       localConfig <> "" -> filename <> "" ->
       LoadLocalConfig w localConfig = (config, None) ->
       main w localConfig filename
       = (Panic, [EvLoadLocalConfig localConfig; EvReadFile filename]).
Proof.
  intros Hr Hy.
  assert (E : loadLaunchFile w filename config = (Panic, [EvReadFile filename])).
  { rewrite loadLaunchFile_eq, Hr, Hy. reflexivity. }
  split; [exact E|]. split.
  - intros out e. rewrite E. discriminate.
  - intros localConfig H1 H2 Hc. unfold main.
    apply String.eqb_neq in H1. apply String.eqb_neq in H2.
    rewrite H1, H2, Hc. unfold bind, emit. rewrite E. reflexivity.
Qed.

Lemma nil_manifest_panics_witness :
  loadLaunchFile Fixture.emptyManifest "launch.yaml" (Some Fixture.config)
  = (Panic, [EvReadFile "launch.yaml"])
  /\ main Fixture.emptyManifest "config.yaml" "launch.yaml"
     = (Panic, [EvLoadLocalConfig "config.yaml"; EvReadFile "launch.yaml"]).
Proof.
  destruct (nil_manifest_panics Fixture.emptyManifest "launch.yaml"
              (Some Fixture.config) [] eq_refl eq_refl) as (H1 & _ & H3).
  split; [exact H1|].
  apply H3; [discriminate | discriminate | reflexivity].
Defined.

(** C9: [loadLaunchFile] returns an error only together with a nil
    manifest, and returns a manifest only when the block height is set,
    the snapshot digest is the declared one and every contract the loop
    visited has its declared digest.  Besides returning it can only
    panic, on a nil manifest or configuration pointer. *)
Theorem loadLaunchFile_nil_on_error (w : World) (filename : string)
    (config : option Config) :
  match result (loadLaunchFile w filename config) with
  | Ret (out, Some e) => out = None
  | Ret (out, None) =>
      exists ld cfg cnt,
        out = Some ld /\ config = Some cfg
        /\ ReadFile w filename = (cnt, None)
        /\ yamlUnmarshal w cnt None = (Some ld, None)
        /\ LaunchBitcoinBlockHeight ld <> 0%Z
        /\ snapshot_matches w cfg ld
        /\ Forall (contract_matches w) (rangeOrder w (contractMap cfg ld))
  | Panic =>
      (exists cnt, ReadFile w filename = (cnt, None)
                   /\ yamlUnmarshal w cnt None = (None, None))
      \/ config = None
  | Exit _ => False
  end.
Proof. apply loadLaunchFile_outcome. Qed.

(** On the agreed files the load succeeds: five digests are finalised and
    each is printed right after. *)
Example agreed_load_succeeds :
  loadLaunchFile Fixture.agreed "launch.yaml" (Some Fixture.config)
  = (Ret (Some Fixture.manifest, None),
     [EvReadFile "launch.yaml";
      EvReadFile "snapshot.csv"; EvSum Fixture.snapshotHash;
      printedSnapshot "snapshot.csv" Fixture.snapshotHash;
      EvReadFile "bios.wasm"; EvReadFile "bios.abi";
      EvSum (ContractHashes.BIOS Fixture.hashes);
      printedContract "bios.wasm" "bios.abi" (ContractHashes.BIOS Fixture.hashes);
      EvReadFile "system.wasm"; EvReadFile "system.abi";
      EvSum (ContractHashes.System Fixture.hashes);
      printedContract "system.wasm" "system.abi"
        (ContractHashes.System Fixture.hashes);
      EvReadFile "msig.wasm"; EvReadFile "msig.abi";
      EvSum (ContractHashes.Msig Fixture.hashes);
      printedContract "msig.wasm" "msig.abi" (ContractHashes.Msig Fixture.hashes);
      EvReadFile "token.wasm"; EvReadFile "token.abi";
      EvSum (ContractHashes.Token Fixture.hashes);
      printedContract "token.wasm" "token.abi"
        (ContractHashes.Token Fixture.hashes)]).
Proof. vm_compute. reflexivity. Qed.

(** C10: the checks run in a fixed order.  With a zero block height the
    only event is the read of the manifest file.  With the height set and
    a snapshot digest other than the declared one, the events are the two
    reads, the snapshot digest and its printed line, and nothing of any
    contract.  Only when the snapshot digest is the declared one does the
    contract loop run, after those events. *)
Theorem validation_order (w : World) (filename : string) (cfg : Config)
    (cnt scnt : bytes) (ld : LaunchData) :
  ReadFile w filename = (cnt, None) ->
  yamlUnmarshal w cnt None = (Some ld, None) ->
  ReadFile w (OpeningBalances.SnapshotPath (OpeningBalances cfg)) = (scnt, None) ->
  let sp := OpeningBalances.SnapshotPath (OpeningBalances cfg) in
  let s := hex.EncodeToString (sha256.Sum256 scnt) in
  (LaunchBitcoinBlockHeight ld = 0%Z ->
   loadLaunchFile w filename (Some cfg)
   = (Ret (None, Some errHeight), [EvReadFile filename]))
  /\ (LaunchBitcoinBlockHeight ld <> 0%Z ->
      s <> OpeningBalancesSnapshotHash ld ->
      loadLaunchFile w filename (Some cfg)
      = (Ret (None, Some errSnapshot), snapshotPrefix filename sp s))
  /\ (LaunchBitcoinBlockHeight ld <> 0%Z ->
      s = OpeningBalancesSnapshotHash ld ->
      trace (loadLaunchFile w filename (Some cfg))
      = snapshotPrefix filename sp s
          ++ trace (rangeContracts w (rangeOrder w (contractMap cfg ld)))).
Proof.
  intros Hr Hy Hs sp s.
  split; [|split].
  - intros Hz. rewrite loadLaunchFile_eq, Hr, Hy, Hz. reflexivity.
  - intros Hz Hd. rewrite loadLaunchFile_eq, Hr, Hy.
    apply Z.eqb_neq in Hz. rewrite Hz. cbv zeta. rewrite Hs.
    apply String.eqb_neq in Hd. fold s. rewrite Hd. reflexivity.
  - intros Hz Hd. rewrite loadLaunchFile_eq, Hr, Hy.
    apply Z.eqb_neq in Hz. rewrite Hz. cbv zeta. rewrite Hs.
    apply String.eqb_eq in Hd. fold s. rewrite Hd. cbv [negb].
    destruct (rangeContracts w _) as [[[e|]| |c] t]; reflexivity.
Qed.

Lemma validation_order_witness :
  loadLaunchFile Fixture.snapshotAltered "launch.yaml" (Some Fixture.config)
  = (Ret (None, Some errSnapshot),
     [EvReadFile "launch.yaml"; EvReadFile "snapshot.csv";
      EvSum "cf9901496c167acd943466dd498df2117b216b61413ee75d1800b2fb9a351d9b";
      printedSnapshot "snapshot.csv"
        "cf9901496c167acd943466dd498df2117b216b61413ee75d1800b2fb9a351d9b"]).
Proof.
  pose proof (validation_order Fixture.snapshotAltered "launch.yaml"
                Fixture.config
                (bytes_of_string "launch_btc_block_height: 500000")
                (bytes_of_string "alice,101") Fixture.manifest
                eq_refl eq_refl eq_refl) as H.
  cbv zeta in H. destruct H as (_ & H & _).
  rewrite <- altered_snapshot_digest.
  apply H; [discriminate|].
  rewrite altered_snapshot_digest. discriminate.
Defined.

(** C2: when the manifest is decoded and the snapshot digest or the
    digest of any of the four contracts is not the declared one (the file
    differs or cannot be read), [main] exits with status 1 on a fatal log
    line, and nothing before that line reaches the network or the
    shuffle. *)
Theorem mismatch_exits_before_network (w : World)
    (localConfig launchData : string) (cfg : Config) (cnt : bytes)
    (ld : LaunchData) :
  LoadLocalConfig w localConfig = (Some cfg, None) ->
  ReadFile w launchData = (cnt, None) ->
  yamlUnmarshal w cnt None = (Some ld, None) ->
  range_visits_each_once w ->
  (~ snapshot_matches w cfg ld
   \/ exists entry, In entry (contractMap cfg ld) /\ ~ contract_matches w entry) ->
  exists t args,
    main w localConfig launchData = (Exit 1, t ++ [EvFatal args])
    /\ local_trace t.
Proof.
  intros Hc Hr Hy Hperm Hmis.
  destruct (String.eqb localConfig "" || String.eqb launchData "")%bool eqn:Hf.
  { exists [], [AString "missing --launch-data or --local-config"].
    split; [unfold main; rewrite Hf; reflexivity | constructor]. }
  apply orb_false_elim in Hf. destruct Hf as [H1 H2].
  apply String.eqb_neq in H1. apply String.eqb_neq in H2.
  pose proof (loadLaunchFile_outcome w launchData (Some cfg)) as O.
  pose proof (proj2 (loadLaunchFile_trace_facts w launchData (Some cfg))) as L.
  destruct (loadLaunchFile w launchData (Some cfg)) as [[[out [e|]]| |c] t] eqn:El;
    unfold result, trace in O, L; simpl fst in O; simpl snd in L.
  - exists (EvLoadLocalConfig localConfig :: t),
      [AString "launch data error:"; AError e].
    split; [|constructor; [reflexivity | exact L]].
    now rewrite (main_launch_error w _ _ _ _ _ _ H1 H2 Hc El).
  - exfalso.
    destruct O as (ld' & cfg' & cnt' & _ & Ecfg & Hr' & Hy' & _ & Hs & Hall).
    injection Ecfg as <-.
    rewrite Hr in Hr'. injection Hr' as <-.
    rewrite Hy in Hy'. injection Hy' as <-.
    destruct Hmis as [Hn | (entry & Hin & Hn)]; [now apply Hn|].
    apply Hn. rewrite Forall_forall in Hall. apply Hall.
    apply (Permutation_in entry (Permutation_sym (Hperm (contractMap cfg ld)))).
    exact Hin.
  - exfalso. destruct O as [(cnt' & Hr' & Hy') | O]; [|discriminate].
    rewrite Hr in Hr'. injection Hr' as <-.
    rewrite Hy in Hy'. discriminate.
  - contradiction.
Qed.

Lemma mismatch_exits_before_network_witness :
  exists t args,
    main Fixture.snapshotAltered "config.yaml" "launch.yaml"
    = (Exit 1, t ++ [EvFatal args])
    /\ local_trace t.
Proof.
  apply (mismatch_exits_before_network Fixture.snapshotAltered
           "config.yaml" "launch.yaml" Fixture.config
           (bytes_of_string "launch_btc_block_height: 500000")
           Fixture.manifest eq_refl eq_refl eq_refl).
  - intros m. apply Permutation_refl.
  - left. unfold snapshot_matches. vm_compute. discriminate.
Defined.

(** With one byte of the snapshot changed, the run is the two reads, the
    digest, its printed line and the fatal log line. *)
Example snapshot_altered_run :
  main Fixture.snapshotAltered "config.yaml" "launch.yaml"
  = (Exit 1,
     [EvLoadLocalConfig "config.yaml";
      EvReadFile "launch.yaml"; EvReadFile "snapshot.csv";
      EvSum "cf9901496c167acd943466dd498df2117b216b61413ee75d1800b2fb9a351d9b";
      printedSnapshot "snapshot.csv"
        "cf9901496c167acd943466dd498df2117b216b61413ee75d1800b2fb9a351d9b";
      EvFatal [AString "launch data error:"; AError errSnapshot]]).
Proof. vm_compute. reflexivity. Qed.

(** What the loop body returns for each contract when the code of bios
    and of system was changed. *)
Lemma twoAltered_checkContract
    (order : list (string * contractCompare) -> list (string * contractCompare))
    (entry : string * contractCompare) :
  In entry (contractMap Fixture.config Fixture.manifest) ->
  result (checkContract (Fixture.twoAltered order) entry)
  = Ret (if (String.eqb (fst entry) "bios" || String.eqb (fst entry) "system")%bool
         then Some (errMismatch (fst entry)) else None).
Proof.
  intros [<-|[<-|[<-|[<-|[]]]]]; vm_compute; reflexivity.
Qed.

(** C1, on the code: with the code of both bios and system changed, and
    whatever order the loop visits the four contracts in, the error
    [loadLaunchFile] returns names bios or names system, one of the two
    and never both. *)
Theorem two_altered_one_reported
    (order : list (string * contractCompare) -> list (string * contractCompare)) :
  (forall m, Permutation (order m) m) ->
  exists name,
    (name = "bios" \/ name = "system")
    /\ result (loadLaunchFile (Fixture.twoAltered order) "launch.yaml"
                 (Some Fixture.config))
       = Ret (None, Some (errMismatch name)).
Proof.
  intros Hperm.
  set (W := Fixture.twoAltered order).
  set (m := contractMap Fixture.config Fixture.manifest).
  assert (Hload : result (loadLaunchFile W "launch.yaml" (Some Fixture.config))
                  = match result (rangeContracts W (order m)) with
                    | Ret (Some e) => Ret (None, Some e)
                    | Ret None => Ret (Some Fixture.manifest, None)
                    | Panic => Panic
                    | Exit c => Exit c
                    end).
  { assert (Hr : ReadFile W "launch.yaml"
                 = (bytes_of_string "launch_btc_block_height: 500000", None))
      by reflexivity.
    assert (Hy : yamlUnmarshal W
                   (bytes_of_string "launch_btc_block_height: 500000") None
                 = (Some Fixture.manifest, None)) by reflexivity.
    assert (Hs : ReadFile W (OpeningBalances.SnapshotPath
                               (OpeningBalances Fixture.config))
                 = (bytes_of_string "alice,100", None)) by reflexivity.
    rewrite loadLaunchFile_eq, Hr, Hy.
    change (Z.eqb (LaunchBitcoinBlockHeight Fixture.manifest) 0) with false.
    cbv iota zeta. rewrite Hs, snapshot_digest.
    change (OpeningBalancesSnapshotHash Fixture.manifest)
      with Fixture.snapshotHash.
    rewrite String.eqb_refl. cbv [negb].
    change (rangeOrder W (contractMap Fixture.config Fixture.manifest))
      with (order m).
    destruct (rangeContracts W (order m)) as [[[e|]| |c] t]; reflexivity. }
  destruct (rangeContracts_spec W (order m)) as (r & t & E & M & S & _).
  rewrite Hload, E. unfold result at 1. simpl fst.
  destruct r as [e|].
  - destruct (S e eq_refl) as (entry & Hin & Hc).
    apply (Permutation_in entry (Hperm m)) in Hin.
    pose proof (twoAltered_checkContract order entry Hin) as Hc'.
    fold W in Hc'. rewrite Hc' in Hc. clear Hc'.
    destruct (String.eqb (fst entry) "bios" || String.eqb (fst entry) "system")%bool
      eqn:Hn; [|discriminate].
    apply (f_equal (fun o => match o with Ret (Some x) => x | _ => e end)) in Hc.
    simpl in Hc. subst e.
    exists (fst entry). split; [|reflexivity].
    apply orb_true_iff in Hn.
    destruct Hn as [Hn|Hn]; apply String.eqb_eq in Hn; auto.
  - exfalso.
    assert (Hall : Forall (contract_matches W) (order m)) by now apply M.
    rewrite Forall_forall in Hall.
    set (bios := ("bios", newCC (Contracts.BIOS (Contracts Fixture.config))
                            (ContractHashes.BIOS (ContractHashes Fixture.manifest)))).
    assert (Hb : In bios m) by (left; reflexivity).
    pose proof (twoAltered_checkContract order bios Hb) as Hc.
    apply (Permutation_in bios (Permutation_sym (Hperm m))) in Hb.
    apply Hall in Hb.
    destruct (checkContract_spec W bios) as (r' & t' & E' & M' & _).
    apply M' in Hb. subst r'.
    fold W in Hc. rewrite E' in Hc. discriminate Hc.
Qed.

Lemma two_altered_one_reported_witness :
  exists name,
    (name = "bios" \/ name = "system")
    /\ result (loadLaunchFile (Fixture.twoAltered Fixture.inOrder) "launch.yaml"
                 (Some Fixture.config))
       = Ret (None, Some (errMismatch name)).
Proof.
  apply two_altered_one_reported.
  intros m. apply Permutation_refl.
Defined.

(** Visited in the order of the map literal, the loop stops at bios: the
    files of system, also changed, are never read. *)
Example two_altered_in_order :
  loadLaunchFile (Fixture.twoAltered Fixture.inOrder) "launch.yaml"
    (Some Fixture.config)
  = (Ret (None, Some (errMismatch "bios")),
     [EvReadFile "launch.yaml";
      EvReadFile "snapshot.csv"; EvSum Fixture.snapshotHash;
      printedSnapshot "snapshot.csv" Fixture.snapshotHash;
      EvReadFile "bios.wasm"; EvReadFile "bios.abi";
      EvSum "cf5f5bc1b04e24cb442a778e88ea99ddb51463cf402f362a804ea3715d54a8cc";
      printedContract "bios.wasm" "bios.abi"
        "cf5f5bc1b04e24cb442a778e88ea99ddb51463cf402f362a804ea3715d54a8cc"]).
Proof. vm_compute. reflexivity. Qed.

(** Visited in the opposite order, the loop stops at system instead. *)
Example two_altered_reversed :
  result (loadLaunchFile (Fixture.twoAltered (@rev _)) "launch.yaml"
            (Some Fixture.config))
  = Ret (None, Some (errMismatch "system")).
Proof. vm_compute. reflexivity. Qed.

(** C3, on the code: a manifest that declares the account eosio.aaa twice
    loads without an error, and [main] goes on to create the clients,
    query the wallet, shuffle and run. *)
Theorem duplicate_accounts_accepted :
  ~ NoDup (map AccountName (Producers Fixture.manifestDuplicate))
  /\ result (loadLaunchFile Fixture.duplicated "launch.yaml" (Some Fixture.config))
     = Ret (Some Fixture.manifestDuplicate, None)
  /\ result (main Fixture.duplicated "config.yaml" "launch.yaml") = Ret tt
  /\ filter network_or_shuffle
       (trace (main Fixture.duplicated "config.yaml" "launch.yaml"))
     = [EvNewAPI "http://localhost:8888"; EvNewAPI "http://localhost:6666";
        EvNewWalletSigner "default"; EvSetSigner; EvWalletPublicKeys;
        EvNewBIOS; EvShuffleProducers; EvRun].
Proof.
  split; [|split; [|split]].
  - intros H. inversion H as [|? ? Hn _]. apply Hn. left. reflexivity.
  - vm_compute. reflexivity.
  - vm_compute. reflexivity.
  - vm_compute. reflexivity.
Qed.

(** * Further properties of the hasher *)

Lemma digit_in_hextable (v : Z) : In (hex.digit v) hex.hextable.
Proof.
  unfold hex.digit.
  destruct (nth_in_or_default (Z.to_nat v) hex.hextable "0"%char) as [H|H];
    [exact H|].
  rewrite H. left. reflexivity.
Qed.

Lemma EncodeToString_lower_hex (src : bytes) :
  Forall (fun c => In c hex.hextable)
         (list_ascii_of_string (hex.EncodeToString src)).
Proof.
  induction src as [|b rest IH]; simpl; [constructor|].
  constructor; [apply digit_in_hextable|].
  constructor; [apply digit_in_hextable | exact IH].
Qed.

Lemma Sum256_lower_hex64 (p : bytes) :
  lower_hex64 (hex.EncodeToString (sha256.Sum256 p)).
Proof.
  split; [|apply EncodeToString_lower_hex].
  rewrite length_EncodeToString, length_Sum256. reflexivity.
Qed.

(** A digest that [hashFile] returns is one of [lower_hex64]. *)
Lemma hashFile_returns_hex (w : World) (filename d : string) :
  result (hashFile w filename) = Ret (d, None) -> lower_hex64 d.
Proof.
  rewrite hashFile_eq.
  destruct (ReadFile w filename) as [cnt [e|]]; unfold result; simpl;
    intros H; [discriminate|].
  apply (f_equal returned_digest) in H. simpl in H. subst d.
  apply Sum256_lower_hex64.
Qed.

(** A digest that [hashCodeFiles] returns is one of [lower_hex64]. *)
Lemma hashCodeFiles_returns_hex (w : World) (code abi d : string) :
  result (hashCodeFiles w code abi) = Ret (d, None) -> lower_hex64 d.
Proof.
  rewrite hashCodeFiles_eq.
  destruct (ReadFile w code) as [c [e|]]; unfold result; simpl;
    [discriminate|].
  destruct (ReadFile w abi) as [a [e|]]; simpl; intros H; [discriminate|].
  apply (f_equal returned_digest) in H. simpl in H. subst d.
  apply Sum256_lower_hex64.
Qed.

Lemma bytes_eq_decidable (a b : bytes) : a = b \/ a <> b.
Proof. destruct (list_eq_dec byte_eq_dec a b); auto. Qed.

(** X1: when the code file cannot be read, [hashCodeFiles] returns that
    file's error and never opens the ABI file, whatever the state of the
    ABI file. *)
Theorem hashCodeFiles_code_error_first (w : World) (code abi : string)
    (cnt : bytes) (e : error) :
  ReadFile w code = (cnt, Some e) ->
  hashCodeFiles w code abi = (Ret ("", Some e), [EvReadFile code])
  /\ (abi <> code -> ~ In (EvReadFile abi) (trace (hashCodeFiles w code abi))).
Proof.
  intros H. rewrite hashCodeFiles_eq, H. split; [reflexivity|].
  intros Hne [D|[]]. injection D as D. congruence.
Qed.

Lemma hashCodeFiles_code_error_first_witness :
  hashCodeFiles Fixture.codeMissing "bios.wasm" "bios.abi"
  = (Ret ("", Some (Fixture.noSuchFile "bios.wasm")), [EvReadFile "bios.wasm"]).
Proof.
  apply (hashCodeFiles_code_error_first Fixture.codeMissing
           "bios.wasm" "bios.abi" [] (Fixture.noSuchFile "bios.wasm") eq_refl).
Defined.

(** X2: the combined hash of a code file and an ABI file is the
    single-file hash of any file that holds the code bytes, one ':' byte
    and the ABI bytes. *)
Theorem hashCodeFiles_is_hashFile_of_joined (w : World)
    (code abi joined : string) (ca cb : bytes) :
  ReadFile w code = (ca, None) ->
  ReadFile w abi = (cb, None) ->
  ReadFile w joined = (ca ++ bytes_of_string ":" ++ cb, None) ->
  result (hashCodeFiles w code abi) = result (hashFile w joined).
Proof.
  intros Hc Ha Hj. rewrite hashCodeFiles_eq, hashFile_eq, Hc, Ha, Hj.
  reflexivity.
Qed.

Lemma hashCodeFiles_is_hashFile_of_joined_witness :
  result (hashCodeFiles Fixture.withJoined "bios.wasm" "bios.abi")
  = result (hashFile Fixture.withJoined "both").
Proof.
  apply (hashCodeFiles_is_hashFile_of_joined Fixture.withJoined
           "bios.wasm" "bios.abi" "both"
           (bytes_of_string "bios-code") (bytes_of_string "bios-abi")
           eq_refl eq_refl eq_refl).
Defined.

(** X3: a ':' byte at the end of the code file and the same byte at the
    start of the ABI file are not told apart: moving it across the
    boundary leaves the combined hash unchanged. *)
Theorem hashCodeFiles_delimiter_shift (w : World)
    (code1 abi1 code2 abi2 : string) (x y : bytes) :
  ReadFile w code1 = (x ++ bytes_of_string ":", None) ->
  ReadFile w abi1 = (y, None) ->
  ReadFile w code2 = (x, None) ->
  ReadFile w abi2 = (bytes_of_string ":" ++ y, None) ->
  result (hashCodeFiles w code1 abi1) = result (hashCodeFiles w code2 abi2).
Proof.
  intros H1 H2 H3 H4. rewrite !hashCodeFiles_eq, H1, H2, H3, H4.
  cbv zeta. rewrite <- app_assoc. reflexivity.
Qed.

Lemma hashCodeFiles_delimiter_shift_witness :
  result (hashCodeFiles Fixture.shifted "c1" "a1")
  = result (hashCodeFiles Fixture.shifted "c2" "a2").
Proof.
  apply (hashCodeFiles_delimiter_shift Fixture.shifted "c1" "a1" "c2" "a2"
           (bytes_of_string "code") (bytes_of_string "abi")
           eq_refl eq_refl eq_refl eq_refl).
Defined.

(** X4: when neither code file holds a ':' byte, equal combined hashes
    mean equal code bytes and equal ABI bytes, unless SHA-256 itself maps
    the two different streams to one value. *)
Theorem hashCodeFiles_pair_determined (w : World)
    (code1 abi1 code2 abi2 : string) (x1 y1 x2 y2 : bytes) :
  ReadFile w code1 = (x1, None) -> ReadFile w abi1 = (y1, None) ->
  ReadFile w code2 = (x2, None) -> ReadFile w abi2 = (y2, None) ->
  ~ In x3a x1 -> ~ In x3a x2 ->
  result (hashCodeFiles w code1 abi1) = result (hashCodeFiles w code2 abi2) ->
  (x1 = x2 /\ y1 = y2)
  \/ (x1 ++ bytes_of_string ":" ++ y1 <> x2 ++ bytes_of_string ":" ++ y2
      /\ sha256.Sum256 (x1 ++ bytes_of_string ":" ++ y1)
         = sha256.Sum256 (x2 ++ bytes_of_string ":" ++ y2)).
Proof.
  intros H1 H2 H3 H4 N1 N2.
  rewrite !hashCodeFiles_eq, H1, H2, H3, H4. unfold result. simpl.
  intros E. apply (f_equal returned_digest) in E. simpl in E.
  apply EncodeToString_inj in E.
  destruct (bytes_eq_decidable
              (x1 ++ bytes_of_string ":" ++ y1)
              (x2 ++ bytes_of_string ":" ++ y2)) as [S|S];
    [left | right; split; assumption].
  change (bytes_of_string ":" ++ y1) with (x3a :: y1) in S.
  change (bytes_of_string ":" ++ y2) with (x3a :: y2) in S.
  assert (Hx : x1 = x2) by (eapply app_first_separator; eauto).
  subst x2. apply app_inv_head in S. injection S as S. split; [reflexivity | exact S].
Qed.

Lemma hashCodeFiles_pair_determined_witness :
  (bytes_of_string "bios-code" = bytes_of_string "bios-code"
   /\ bytes_of_string "bios-abi" = bytes_of_string "bios-abi")
  \/ (bytes_of_string "bios-code" ++ bytes_of_string ":" ++ bytes_of_string "bios-abi"
      <> bytes_of_string "bios-code" ++ bytes_of_string ":" ++ bytes_of_string "bios-abi"
      /\ sha256.Sum256 (bytes_of_string "bios-code" ++ bytes_of_string ":"
                          ++ bytes_of_string "bios-abi")
         = sha256.Sum256 (bytes_of_string "bios-code" ++ bytes_of_string ":"
                            ++ bytes_of_string "bios-abi")).
Proof.
  apply (hashCodeFiles_pair_determined Fixture.agreed
           "bios.wasm" "bios.abi" "bios.wasm" "bios.abi"
           (bytes_of_string "bios-code") (bytes_of_string "bios-abi")
           (bytes_of_string "bios-code") (bytes_of_string "bios-abi")
           eq_refl eq_refl eq_refl eq_refl).
  - simpl. intuition discriminate.
  - simpl. intuition discriminate.
  - reflexivity.
Defined.

(** X5: every digest a hasher returns is 64 characters long and made of
    the characters 0 to 9 and a to f only. *)
Theorem hashers_return_lower_hex64 (w : World) (d : string) :
  (exists filename, result (hashFile w filename) = Ret (d, None))
  \/ (exists code abi, result (hashCodeFiles w code abi) = Ret (d, None)) ->
  lower_hex64 d.
Proof.
  intros [(f & H) | (c & a & H)];
    [eapply hashFile_returns_hex | eapply hashCodeFiles_returns_hex]; eauto.
Qed.

Lemma hashers_return_lower_hex64_witness : lower_hex64 Fixture.snapshotHash.
Proof.
  apply (hashers_return_lower_hex64 Fixture.agreed).
  left. exists "snapshot.csv". rewrite hashFile_eq. unfold result. simpl.
  rewrite snapshot_digest. reflexivity.
Defined.

(** * Further properties of the integrity verifier *)

Section VerifierDetail.

Variable w : World.

(** The four ways one turn of the loop can go. *)
Lemma checkContract_detail (name : string) (cmp : contractCompare) :
  let code := CodePath (location cmp) in
  let abi := ABIPath (location cmp) in
  (exists c e, ReadFile w code = (c, Some e)
     /\ checkContract w (name, cmp)
        = (Ret (Some (errHashing name e)), [EvReadFile code]))
  \/ (exists c a e, ReadFile w code = (c, None) /\ ReadFile w abi = (a, Some e)
        /\ checkContract w (name, cmp)
           = (Ret (Some (errHashing name e)), [EvReadFile code; EvReadFile abi]))
  \/ (exists c a, ReadFile w code = (c, None) /\ ReadFile w abi = (a, None)
        /\ contractDigest c a <> hash cmp
        /\ checkContract w (name, cmp)
           = (Ret (Some (errMismatch name)),
              contractEvents (contractDigest c a) (name, cmp)))
  \/ (exists c a, ReadFile w code = (c, None) /\ ReadFile w abi = (a, None)
        /\ contractDigest c a = hash cmp
        /\ checkContract w (name, cmp)
           = (Ret None, contractEvents (hash cmp) (name, cmp))).
Proof.
  intros code abi. rewrite checkContract_eq. fold code. fold abi.
  destruct (ReadFile w code) as [c [e|]].
  { left. exists c, e. split; reflexivity. }
  destruct (ReadFile w abi) as [a [e|]].
  { right; left. exists c, a, e. repeat split. }
  cbv zeta. fold (contractDigest c a).
  destruct (String.eqb_spec (contractDigest c a) (hash cmp)) as [E|N].
  - right; right; right. exists c, a. repeat split; [exact E|].
    rewrite E. reflexivity.
  - right; right; left. exists c, a. repeat split. exact N.
Qed.

(** The loop either passes every entry, or stops at the first entry whose
    turn returns an error: the entries before it passed, and nothing is
    done for the entries after it. *)
Lemma rangeContracts_detail (entries : list (string * contractCompare)) :
  rangeContracts w entries = (Ret None, passedEvents entries)
  \/ exists before entry after e t,
       entries = before ++ entry :: after
       /\ Forall (contract_matches w) before
       /\ checkContract w entry = (Ret (Some e), t)
       /\ rangeContracts w entries = (Ret (Some e), passedEvents before ++ t).
Proof.
  induction entries as [|[name cmp] rest IH]; [left; reflexivity|].
  rewrite rangeContracts_cons.
  destruct (checkContract_detail name cmp)
    as [(c & e & _ & E) | [(c & a & e & _ & _ & E)
        | [(c & a & _ & _ & _ & E) | (c & a & Hc & Ha & Hd & E)]]].
  1-3: right; exists [], (name, cmp), rest; do 2 eexists;
       (split; [reflexivity|]); (split; [constructor|]);
       (split; [exact E|]); rewrite E; unfold bind, ret; simpl;
       rewrite ?app_nil_r; reflexivity.
  assert (Hm : contract_matches w (name, cmp)).
  { unfold contract_matches. simpl snd. rewrite hashCodeFiles_eq, Hc, Ha.
    cbv zeta. fold (contractDigest c a). rewrite Hd. reflexivity. }
  rewrite E. unfold bind.
  destruct IH as [IH | (before & entry & after & e & t & -> & Hb & Ec & IH)].
  - left. rewrite IH. reflexivity.
  - right. exists ((name, cmp) :: before), entry, after, e, t.
    split; [reflexivity|]. split; [constructor; assumption|].
    split; [exact Ec|]. rewrite IH. unfold passedEvents. simpl.
    reflexivity.
Qed.

(** The loop asks nothing of the environment but its files. *)
Lemma rangeContracts_ext (w' : World) (entries : list (string * contractCompare)) :
  (forall p, ReadFile w' p = ReadFile w p) ->
  rangeContracts w' entries = rangeContracts w entries.
Proof.
  intros H. induction entries as [|[name cmp] rest IH]; [reflexivity|].
  rewrite !rangeContracts_cons, IH.
  f_equal. rewrite !checkContract_eq, !H. reflexivity.
Qed.

Lemma contract_matches_ext (w' : World) (entry : string * contractCompare) :
  (forall p, ReadFile w' p = ReadFile w p) ->
  contract_matches w' entry <-> contract_matches w entry.
Proof.
  intros H. unfold contract_matches. rewrite !hashCodeFiles_eq, !H. reflexivity.
Qed.

(** When [range] visits each entry once, [loadLaunchFile] returns the
    manifest exactly when every check passes. *)
Lemma loadLaunchFile_success_criterion (filename : string)
    (config : option Config) (ld : LaunchData) :
  range_visits_each_once w ->
  result (loadLaunchFile w filename config) = Ret (Some ld, None)
  <-> exists cnt cfg,
        ReadFile w filename = (cnt, None)
        /\ yamlUnmarshal w cnt None = (Some ld, None)
        /\ LaunchBitcoinBlockHeight ld <> 0%Z
        /\ config = Some cfg
        /\ snapshot_matches w cfg ld
        /\ Forall (contract_matches w) (contractMap cfg ld).
Proof.
  intros Hperm. split.
  - intros H. pose proof (loadLaunchFile_outcome w filename config) as O.
    rewrite H in O.
    destruct O as (ld' & cfg & cnt & E & Ec & Hr & Hy & Hz & Hs & Hall).
    injection E as <-. exists cnt, cfg. repeat (split; [assumption|]).
    eapply Permutation_Forall; [apply Hperm | exact Hall].
  - intros (cnt & cfg & Hr & Hy & Hz & -> & Hs & Hall).
    rewrite loadLaunchFile_eq, Hr, Hy.
    apply Z.eqb_neq in Hz. rewrite Hz. cbv zeta.
    unfold snapshot_matches in Hs. rewrite hashFile_eq in Hs.
    destruct (ReadFile w (OpeningBalances.SnapshotPath (OpeningBalances cfg)))
      as [scnt [e|]]; unfold result in Hs; simpl in Hs; [discriminate|].
    apply (f_equal returned_digest) in Hs. simpl in Hs.
    rewrite Hs, String.eqb_refl. cbv [negb].
    destruct (rangeContracts_spec w (rangeOrder w (contractMap cfg ld)))
      as (r & t & E & M & _).
    rewrite E.
    assert (Hr0 : r = None).
    { apply M. eapply Permutation_Forall;
        [apply Permutation_sym, Hperm | exact Hall]. }
    subst r. reflexivity.
Qed.

End VerifierDetail.

(** X6: a manifest that loads declares only digests of 64 lower-case hex
    characters: a declared hash in upper case, with a prefix, or of
    another length never verifies, whatever the files hold. *)
Theorem loaded_manifest_declares_hex_digests (w : World) (filename : string)
    (config : option Config) (ld : LaunchData) :
  range_visits_each_once w ->
  result (loadLaunchFile w filename config) = Ret (Some ld, None) ->
  lower_hex64 (OpeningBalancesSnapshotHash ld)
  /\ lower_hex64 (ContractHashes.BIOS (ContractHashes ld))
  /\ lower_hex64 (ContractHashes.System (ContractHashes ld))
  /\ lower_hex64 (ContractHashes.Msig (ContractHashes ld))
  /\ lower_hex64 (ContractHashes.Token (ContractHashes ld)).
Proof.
  intros Hperm H.
  apply (loadLaunchFile_success_criterion w filename config ld Hperm) in H.
  destruct H as (cnt & cfg & _ & _ & _ & _ & Hs & Hall).
  split; [eapply hashFile_returns_hex; exact Hs|].
  unfold contractMap in Hall.
  inversion Hall as [|? ? H1 Hall1]; subst.
  inversion Hall1 as [|? ? H2 Hall2]; subst.
  inversion Hall2 as [|? ? H3 Hall3]; subst.
  inversion Hall3 as [|? ? H4 _]; subst.
  repeat split; eapply hashCodeFiles_returns_hex;
    [exact H1 | exact H1 | exact H2 | exact H2 | exact H3 | exact H3
     | exact H4 | exact H4].
Qed.

Lemma loaded_manifest_declares_hex_digests_witness :
  lower_hex64 (OpeningBalancesSnapshotHash Fixture.manifest)
  /\ lower_hex64 (ContractHashes.BIOS (ContractHashes Fixture.manifest))
  /\ lower_hex64 (ContractHashes.System (ContractHashes Fixture.manifest))
  /\ lower_hex64 (ContractHashes.Msig (ContractHashes Fixture.manifest))
  /\ lower_hex64 (ContractHashes.Token (ContractHashes Fixture.manifest)).
Proof.
  apply (loaded_manifest_declares_hex_digests Fixture.agreed "launch.yaml"
           (Some Fixture.config)).
  - intros m. apply Permutation_refl.
  - vm_compute. reflexivity.
Defined.

(** X7: when [range] visits each entry once, [loadLaunchFile] returns a
    manifest, with a nil error, exactly when the manifest file is read and
    decoded to it, its block height is not zero, the configuration is
    there, the snapshot's digest is the declared one and so is the digest
    of each of the four contracts. *)
Theorem loadLaunchFile_succeeds_iff (w : World) (filename : string)
    (config : option Config) (ld : LaunchData) :
  range_visits_each_once w ->
  result (loadLaunchFile w filename config) = Ret (Some ld, None)
  <-> exists cnt cfg,
        ReadFile w filename = (cnt, None)
        /\ yamlUnmarshal w cnt None = (Some ld, None)
        /\ LaunchBitcoinBlockHeight ld <> 0%Z
        /\ config = Some cfg
        /\ snapshot_matches w cfg ld
        /\ Forall (contract_matches w) (contractMap cfg ld).
Proof. apply loadLaunchFile_success_criterion. Qed.

Lemma loadLaunchFile_succeeds_iff_witness :
  result (loadLaunchFile Fixture.agreed "launch.yaml" (Some Fixture.config))
  = Ret (Some Fixture.manifest, None).
Proof.
  apply (loadLaunchFile_succeeds_iff Fixture.agreed "launch.yaml"
           (Some Fixture.config) Fixture.manifest).
  - intros m. apply Permutation_refl.
  - exists (bytes_of_string "launch_btc_block_height: 500000"), Fixture.config.
    split; [reflexivity|]. split; [reflexivity|].
    split; [discriminate|]. split; [reflexivity|].
    split; [vm_compute; reflexivity|].
    repeat constructor; vm_compute; reflexivity.
Defined.

(** X8: whether the manifest loads does not depend on the order in which
    [range] visits the contracts: under any two orders that visit each
    contract once, [loadLaunchFile] returns the manifest under one exactly
    when it does under the other. *)
Theorem verdict_independent_of_order (w : World)
    (order : list (string * contractCompare) -> list (string * contractCompare))
    (filename : string) (config : option Config) (ld : LaunchData) :
  range_visits_each_once w ->
  (forall m, Permutation (order m) m) ->
  result (loadLaunchFile w filename config) = Ret (Some ld, None)
  <-> result (loadLaunchFile (withRangeOrder w order) filename config)
      = Ret (Some ld, None).
Proof.
  intros H1 H2.
  rewrite (loadLaunchFile_success_criterion w filename config ld H1).
  rewrite (loadLaunchFile_success_criterion (withRangeOrder w order)
             filename config ld H2).
  reflexivity.
Qed.

Lemma verdict_independent_of_order_witness :
  result (loadLaunchFile Fixture.agreed "launch.yaml" (Some Fixture.config))
  = Ret (Some Fixture.manifest, None)
  <-> result (loadLaunchFile (withRangeOrder Fixture.agreed (@rev _))
                "launch.yaml" (Some Fixture.config))
      = Ret (Some Fixture.manifest, None).
Proof.
  apply verdict_independent_of_order.
  - intros m. apply Permutation_refl.
  - intros m. apply Permutation_sym, Permutation_rev.
Defined.

(** X9: [loadLaunchFile] never looks at the producers of the manifest:
    with any other producer list in the decoded manifest it performs the
    same events and returns the same error, and on success it returns the
    manifest as decoded. *)
Theorem producers_never_inspected (ps : list ProducerDef) (w : World)
    (filename : string) (config : option Config) :
  let w' := withUnmarshal w (decodeWithProducers ps w) in
  trace (loadLaunchFile w' filename config)
  = trace (loadLaunchFile w filename config)
  /\ result (loadLaunchFile w' filename config)
     = match result (loadLaunchFile w filename config) with
       | Ret (out, err) => Ret (option_map (setProducers ps) out, err)
       | Panic => Panic
       | Exit c => Exit c
       end.
Proof.
  intros w'. rewrite !loadLaunchFile_eq.
  assert (Hfs : forall p, ReadFile w' p = ReadFile w p) by reflexivity.
  rewrite !Hfs.
  destruct (ReadFile w filename) as [cnt [e|]]; [split; reflexivity|].
  change (yamlUnmarshal w' cnt None) with (decodeWithProducers ps w cnt None).
  unfold decodeWithProducers.
  destruct (yamlUnmarshal w cnt None) as [[ld|] [e|]]; try (split; reflexivity).
  simpl option_map. cbv iota.
  change (LaunchBitcoinBlockHeight (setProducers ps ld))
    with (LaunchBitcoinBlockHeight ld).
  destruct (Z.eqb (LaunchBitcoinBlockHeight ld) 0); [split; reflexivity|].
  destruct config as [cfg|]; [|split; reflexivity].
  cbv zeta. rewrite ?Hfs.
  destruct (ReadFile w (OpeningBalances.SnapshotPath (OpeningBalances cfg)))
    as [scnt [e|]]; [split; reflexivity|].
  change (OpeningBalancesSnapshotHash (setProducers ps ld))
    with (OpeningBalancesSnapshotHash ld).
  destruct (negb _); [split; reflexivity|].
  change (rangeOrder w' (contractMap cfg (setProducers ps ld)))
    with (rangeOrder w (contractMap cfg ld)).
  rewrite (rangeContracts_ext w w' _ Hfs).
  destruct (rangeContracts w _) as [[[e|]| |c] t]; split; reflexivity.
Qed.

(** X10: the errors [loadLaunchFile] can return.  An error is the bare
    error of reading the manifest file, the bare error of the decoder, the
    block-height error, the bare error of reading the snapshot, the
    snapshot-mismatch error, or an error that names one contract of the
    map: its mismatch error, or the error of reading its code or ABI file
    wrapped with the contract's name. *)
Theorem loadLaunchFile_error_cases (w : World) (filename : string)
    (config : option Config) (out : option LaunchData) (e : error) :
  result (loadLaunchFile w filename config) = Ret (out, Some e) ->
  (exists cnt, ReadFile w filename = (cnt, Some e))
  \/ (exists cnt o, ReadFile w filename = (cnt, None)
                    /\ yamlUnmarshal w cnt None = (o, Some e))
  \/ e = errHeight
  \/ (exists cfg cnt, config = Some cfg
        /\ ReadFile w (OpeningBalances.SnapshotPath (OpeningBalances cfg))
           = (cnt, Some e))
  \/ e = errSnapshot
  \/ (exists cfg cnt ld name cmp,
        config = Some cfg
        /\ ReadFile w filename = (cnt, None)
        /\ yamlUnmarshal w cnt None = (Some ld, None)
        /\ In (name, cmp) (rangeOrder w (contractMap cfg ld))
        /\ (e = errMismatch name
            \/ exists e' cnt,
                 e = errHashing name e'
                 /\ (ReadFile w (CodePath (location cmp)) = (cnt, Some e')
                     \/ ReadFile w (ABIPath (location cmp)) = (cnt, Some e')))).
Proof.
  rewrite loadLaunchFile_eq.
  destruct (ReadFile w filename) as [cnt [e0|]] eqn:Hr.
  { unfold result; simpl. intros H.
    apply (f_equal (fun o => match o with Ret (_, Some x) => x | _ => e end)) in H.
    simpl in H. subst e0. left. now exists cnt. }
  destruct (yamlUnmarshal w cnt None) as [[ld|] [e0|]] eqn:Hy;
    try (unfold result; simpl; intros H;
         apply (f_equal (fun o => match o with Ret (_, Some x) => x | _ => e end))
           in H;
         simpl in H; subst e0; right; left; eexists; eexists; split; eauto);
    [|unfold result; simpl; discriminate].
  destruct (Z.eqb (LaunchBitcoinBlockHeight ld) 0).
  { unfold result; simpl. intros H.
    apply (f_equal (fun o => match o with Ret (_, Some x) => x | _ => e end)) in H.
    simpl in H. subst e. right; right; left. reflexivity. }
  destruct config as [cfg|]; [|unfold result; simpl; discriminate].
  cbv zeta.
  destruct (ReadFile w (OpeningBalances.SnapshotPath (OpeningBalances cfg)))
    as [scnt [e0|]] eqn:Hs.
  { unfold result; simpl. intros H.
    apply (f_equal (fun o => match o with Ret (_, Some x) => x | _ => e end)) in H.
    simpl in H. subst e0. right; right; right; left. exists cfg, scnt. now split. }
  destruct (negb _).
  { unfold result; simpl. intros H.
    apply (f_equal (fun o => match o with Ret (_, Some x) => x | _ => e end)) in H.
    simpl in H. subst e. right; right; right; right; left. reflexivity. }
  destruct (rangeContracts_detail w (rangeOrder w (contractMap cfg ld)))
    as [E | (before & [name cmp] & after & e0 & t & Hl & _ & Ec & E)];
    rewrite E; unfold result; simpl; [discriminate|].
  intros H.
  apply (f_equal (fun o => match o with Ret (_, Some x) => x | _ => e end)) in H.
  simpl in H. subst e0.
  right; right; right; right; right. exists cfg, cnt, ld, name, cmp.
  split; [reflexivity|]. split; [reflexivity|]. split; [exact Hy|].
  split; [rewrite Hl; apply in_elt|].
  destruct (checkContract_detail w name cmp)
    as [(c & e' & Hc & E') | [(c & a & e' & _ & Ha & E')
        | [(c & a & _ & _ & _ & E') | (c & a & _ & _ & _ & E')]]];
    rewrite E' in Ec; apply (f_equal fst) in Ec; simpl in Ec;
    try discriminate Ec;
    apply (f_equal (fun o : outcome (option error) =>
                      match o with Ret (Some x) => x | _ => e end)) in Ec;
    simpl in Ec; subst e.
  - right. exists e', c. split; [reflexivity | now left].
  - right. exists e', a. split; [reflexivity | now right].
  - now left.
Qed.

Lemma loadLaunchFile_error_cases_witness :
  exists name cmp e' cnt,
    In (name, cmp) (contractMap Fixture.config Fixture.manifest)
    /\ errHashing "msig" (Fixture.noSuchFile "msig.abi") = errHashing name e'
    /\ (ReadFile Fixture.abiMissing (CodePath (location cmp)) = (cnt, Some e')
        \/ ReadFile Fixture.abiMissing (ABIPath (location cmp)) = (cnt, Some e')).
Proof.
  assert (H : result (loadLaunchFile Fixture.abiMissing "launch.yaml"
                        (Some Fixture.config))
              = Ret (None, Some (errHashing "msig" (Fixture.noSuchFile "msig.abi"))))
    by (vm_compute; reflexivity).
  apply loadLaunchFile_error_cases in H.
  destruct H as [(cnt & H) | [(cnt & o & _ & H) | [H | [(cfg & cnt & Hc & H)
                 | [H | (cfg & cnt0 & ld & name & cmp & Hc & Hr & Hy & Hin & H)]]]]];
    try discriminate H.
  { injection Hc as <-. discriminate H. }
  injection Hc as <-. injection Hy as <-.
  destruct H as [H | (e' & cnt & He & Hf)]; [discriminate H|].
  exists name, cmp, e', cnt. split; [exact Hin|]. split; assumption.
Defined.

(** The events of a load that succeeds. *)
Lemma loadLaunchFile_success_trace (w : World) (filename : string)
    (cfg : Config) (ld : LaunchData) :
  result (loadLaunchFile w filename (Some cfg)) = Ret (Some ld, None) ->
  trace (loadLaunchFile w filename (Some cfg))
  = snapshotPrefix filename
      (OpeningBalances.SnapshotPath (OpeningBalances cfg))
      (OpeningBalancesSnapshotHash ld)
    ++ passedEvents (rangeOrder w (contractMap cfg ld)).
Proof.
  rewrite loadLaunchFile_eq.
  destruct (ReadFile w filename) as [cnt [e|]];
    [unfold result; simpl; discriminate|].
  destruct (yamlUnmarshal w cnt None) as [[ld'|] [e|]];
    try (unfold result; simpl; discriminate).
  destruct (Z.eqb (LaunchBitcoinBlockHeight ld') 0);
    [unfold result; simpl; discriminate|].
  cbv zeta.
  destruct (ReadFile w (OpeningBalances.SnapshotPath (OpeningBalances cfg)))
    as [scnt [e|]]; [unfold result; simpl; discriminate|].
  destruct (String.eqb_spec (hex.EncodeToString (sha256.Sum256 scnt))
              (OpeningBalancesSnapshotHash ld')) as [Hd|Hd];
    [|unfold result; simpl; discriminate].
  cbv [negb].
  destruct (rangeContracts_detail w (rangeOrder w (contractMap cfg ld')))
    as [E | (before & entry & after & e & t & _ & _ & _ & E)];
    rewrite E; unfold result, trace; simpl fst; simpl snd;
    [|discriminate].
  intros H.
  apply (f_equal (fun o => match o with Ret (Some x, _) => x | _ => ld end)) in H.
  simpl in H. subst ld'. rewrite Hd. reflexivity.
Qed.

(** X11: what a successful load does, in full.  It reads the manifest,
    then the snapshot, then for each contract in the order of the loop its
    code file and its ABI file, each file once; after the snapshot and
    after each contract it prints one line, and the digest on that line is
    the one the manifest declares. *)
Theorem success_prints_declared_digests (w : World) (filename : string)
    (cfg : Config) (ld : LaunchData) :
  result (loadLaunchFile w filename (Some cfg)) = Ret (Some ld, None) ->
  trace (loadLaunchFile w filename (Some cfg))
  = snapshotPrefix filename
      (OpeningBalances.SnapshotPath (OpeningBalances cfg))
      (OpeningBalancesSnapshotHash ld)
    ++ passedEvents (rangeOrder w (contractMap cfg ld)).
Proof. apply loadLaunchFile_success_trace. Qed.

Lemma success_prints_declared_digests_witness :
  trace (loadLaunchFile Fixture.agreed "launch.yaml" (Some Fixture.config))
  = snapshotPrefix "launch.yaml" "snapshot.csv" Fixture.snapshotHash
    ++ passedEvents (contractMap Fixture.config Fixture.manifest).
Proof.
  apply (success_prints_declared_digests Fixture.agreed "launch.yaml"
           Fixture.config Fixture.manifest).
  vm_compute. reflexivity.
Defined.

(** X12: the loop over the contracts stops at the first contract that
    fails: what it returns and what it does are the same whatever
    contracts come after that one, whose files are not read. *)
Theorem loop_stops_at_first_failure (w : World)
    (before after : list (string * contractCompare))
    (entry : string * contractCompare) :
  Forall (contract_matches w) before ->
  ~ contract_matches w entry ->
  rangeContracts w (before ++ entry :: after)
  = rangeContracts w (before ++ [entry]).
Proof.
  intros Hb Hn. induction Hb as [|a l Ha _ IH].
  - simpl app. rewrite !rangeContracts_cons.
    destruct (checkContract_spec w entry) as (r & t & E & M & _).
    rewrite E. destruct r as [e|]; [reflexivity|].
    exfalso. apply Hn, M. reflexivity.
  - simpl app. rewrite !rangeContracts_cons.
    destruct (checkContract_spec w a) as (r & t & E & M & _).
    rewrite E. unfold bind. destruct r as [e|]; [reflexivity|].
    rewrite IH. reflexivity.
Qed.

Lemma loop_stops_at_first_failure_witness :
  rangeContracts (Fixture.twoAltered Fixture.inOrder)
    (contractMap Fixture.config Fixture.manifest)
  = rangeContracts (Fixture.twoAltered Fixture.inOrder)
      [("bios", newCC (Contracts.BIOS (Contracts Fixture.config))
                      (ContractHashes.BIOS (ContractHashes Fixture.manifest)))].
Proof.
  apply (loop_stops_at_first_failure (Fixture.twoAltered Fixture.inOrder) []).
  - constructor.
  - unfold contract_matches. vm_compute. discriminate.
Defined.

(** * Further properties of the orchestrator *)

Section Orchestrator.

Variable w : World.

Lemma checkContract_events (entry : string * contractCompare) :
  forallb is_verifier_event (trace (checkContract w entry)) = true.
Proof.
  destruct entry as [name cmp].
  destruct (checkContract_detail w name cmp)
    as [(c & e & _ & E) | [(c & a & e & _ & _ & E)
        | [(c & a & _ & _ & _ & E) | (c & a & _ & _ & _ & E)]]];
    rewrite E; reflexivity.
Qed.

Lemma rangeContracts_events (entries : list (string * contractCompare)) :
  forallb is_verifier_event (trace (rangeContracts w entries)) = true.
Proof.
  induction entries as [|entry rest IH]; [reflexivity|].
  rewrite rangeContracts_cons.
  pose proof (checkContract_events entry) as Hc.
  destruct (checkContract w entry) as [[[e|]| |c] t]; unfold trace in *;
    simpl in *; rewrite ?app_nil_r; try exact Hc.
  destruct (rangeContracts w rest) as [r t']. simpl in *.
  rewrite forallb_app, Hc, IH. reflexivity.
Qed.

(** [loadLaunchFile] reads files, finalises digests and prints lines, and
    does nothing else. *)
Lemma loadLaunchFile_events (filename : string) (config : option Config) :
  forallb is_verifier_event (trace (loadLaunchFile w filename config)) = true.
Proof.
  rewrite loadLaunchFile_eq.
  destruct (ReadFile w filename) as [cnt [e|]]; [reflexivity|].
  destruct (yamlUnmarshal w cnt None) as [[ld|] [e|]]; try reflexivity.
  destruct (Z.eqb (LaunchBitcoinBlockHeight ld) 0); [reflexivity|].
  destruct config as [cfg|]; [|reflexivity].
  cbv zeta.
  destruct (ReadFile w (OpeningBalances.SnapshotPath (OpeningBalances cfg)))
    as [scnt [e|]]; [reflexivity|].
  destruct (negb _); [reflexivity|].
  pose proof (rangeContracts_events (rangeOrder w (contractMap cfg ld))) as Hc.
  destruct (rangeContracts w _) as [[[e|]| |c] t]; unfold trace in *;
    simpl in *; exact Hc.
Qed.

(** [main] after loading, by the results of the four calls it makes. *)
Lemma boot_eq (cfg : Config) :
  let sp := OpeningBalances.SnapshotPath (OpeningBalances cfg) in
  boot w cfg
  = match WalletPublicKeys w with
    | Some e =>
        (Exit 1, clientEvents cfg
                   ++ [EvFatalf "Wallet node not accessible: %s" [AError e]])
    | None =>
    match NewSnapshot w sp with
    | Some e =>
        (Exit 1, clientEvents cfg
                   ++ [EvNewSnapshot sp;
                       EvFatal [AString "Failed loading snapshot csv:"; AError e]])
    | None =>
    match ShuffleProducers w with
    | Some e =>
        (Exit 1, clientEvents cfg
                   ++ [EvNewSnapshot sp; EvNewBIOS; EvShuffleProducers;
                       EvFatal [AString "Failed shuffling:"; AError e]])
    | None =>
    match Run w with
    | Some e =>
        (Exit 1, clientEvents cfg
                   ++ [EvNewSnapshot sp; EvNewBIOS; EvShuffleProducers; EvRun;
                       EvFatalf "ERROR RUNNING BIOS: %s" [AError e]])
    | None =>
        (Ret tt, clientEvents cfg
                   ++ [EvNewSnapshot sp; EvNewBIOS; EvShuffleProducers; EvRun;
                       printedDone])
    end
    end
    end
    end.
Proof.
  intros sp. unfold boot. fold sp.
  destruct (WalletPublicKeys w); [reflexivity|].
  destruct (NewSnapshot w sp); [reflexivity|].
  destruct (ShuffleProducers w); [reflexivity|].
  destruct (Run w); reflexivity.
Qed.

(** [main], by the outcome of each step up to the loading. *)
Lemma main_eq (localConfig launchData : string) :
  main w localConfig launchData
  = if (String.eqb localConfig "" || String.eqb launchData "")%bool
    then (Exit 1, [EvFatal [AString "missing --launch-data or --local-config"]])
    else
    match LoadLocalConfig w localConfig with
    | (_, Some e) =>
        (Exit 1, [EvLoadLocalConfig localConfig;
                  EvFatal [AString "local config load error:"; AError e]])
    | (config, None) =>
    match loadLaunchFile w launchData config with
    | (Ret (_, Some e), t) =>
        (Exit 1, EvLoadLocalConfig localConfig
                   :: t ++ [EvFatal [AString "launch data error:"; AError e]])
    | (Ret (None, None), t) => (Panic, EvLoadLocalConfig localConfig :: t)
    | (Ret (Some _, None), t) =>
        match config with
        | None => (Panic, EvLoadLocalConfig localConfig :: t)
        | Some cfg =>
            (result (boot w cfg),
             EvLoadLocalConfig localConfig :: t ++ trace (boot w cfg))
        end
    | (Panic, t) => (Panic, EvLoadLocalConfig localConfig :: t)
    | (Exit c, t) => (Exit c, EvLoadLocalConfig localConfig :: t)
    end
    end.
Proof.
  unfold main.
  destruct (String.eqb localConfig "" || String.eqb launchData "")%bool;
    [reflexivity|].
  unfold bind at 1. unfold emit at 1.
  destruct (LoadLocalConfig w localConfig) as [config [e|]]; [reflexivity|].
  unfold bind at 1.
  destruct (loadLaunchFile w launchData config) as [[[[ld|] [e|]]| |c] t];
    try (simpl; rewrite ?app_nil_r; reflexivity).
  destruct config as [cfg|]; [|simpl; rewrite ?app_nil_r; reflexivity].
  change (boot w cfg) with (boot w cfg).
  unfold deref, bind at 1, ret. unfold bind at 1.
  fold (boot w cfg).
  destruct (boot w cfg) as [r t']. reflexivity.
Qed.

End Orchestrator.

Section OrchestratorRuns.

Variable w : World.

Lemma verifier_event_not_boot (e : Event) :
  is_verifier_event e = true -> is_boot_event e = false /\ is_fatal e = false.
Proof. destruct e; simpl; intros H; try discriminate H; split; reflexivity. Qed.

Lemma verifier_events_not_boot (t : list Event) (e : Event) :
  forallb is_verifier_event t = true -> In e t ->
  is_boot_event e = false /\ is_fatal e = false.
Proof.
  intros H Hin. rewrite forallb_forall in H.
  apply verifier_event_not_boot, H, Hin.
Qed.

Lemma verifier_events_no_fatal (t : list Event) :
  forallb is_verifier_event t = true ->
  forallb (fun e => negb (is_fatal e)) t = true.
Proof.
  intros H. apply forallb_forall. intros e Hin.
  destruct (verifier_events_not_boot t e H Hin) as [_ ->]. reflexivity.
Qed.

(** An event of the boot part occurs in a run of [main] only when both
    flags are given, the configuration and the launch data loaded without
    an error, and the event is one of [boot]. *)
Lemma main_boot_events (localConfig launchData : string) (ev : Event) :
  is_boot_event ev = true ->
  In ev (trace (main w localConfig launchData)) ->
  exists cfg ld t,
    localConfig <> "" /\ launchData <> ""
    /\ LoadLocalConfig w localConfig = (Some cfg, None)
    /\ loadLaunchFile w launchData (Some cfg) = (Ret (Some ld, None), t)
    /\ main w localConfig launchData
       = (result (boot w cfg),
          EvLoadLocalConfig localConfig :: t ++ trace (boot w cfg))
    /\ In ev (trace (boot w cfg)).
Proof.
  intros Hb. rewrite main_eq.
  destruct (String.eqb localConfig "" || String.eqb launchData "")%bool eqn:Hf.
  { intros [<-|[]]. discriminate Hb. }
  apply orb_false_elim in Hf. destruct Hf as [H1 H2].
  apply String.eqb_neq in H1. apply String.eqb_neq in H2.
  destruct (LoadLocalConfig w localConfig) as [config [e|]] eqn:Hc.
  { intros [<-|[<-|[]]]; discriminate Hb. }
  pose proof (loadLaunchFile_events w launchData config) as Hev.
  destruct (loadLaunchFile w launchData config) as [[[[ld|] [e|]]| |c] t] eqn:El;
    unfold trace in Hev |- *; simpl snd in Hev |- *.
  1,3: intros [<-|Hin]; [discriminate Hb|];
       apply in_app_or in Hin; destruct Hin as [Hin|[<-|[]]];
       [destruct (verifier_events_not_boot t ev Hev Hin) as [Hn _]; congruence
       | discriminate Hb].
  2-4: intros [<-|Hin]; [discriminate Hb|];
       destruct (verifier_events_not_boot t ev Hev Hin) as [Hn _]; congruence.
  destruct config as [cfg|].
  2: { intros [<-|Hin]; [discriminate Hb|].
       destruct (verifier_events_not_boot t ev Hev Hin) as [Hn _]. congruence. }
  intros [<-|Hin]; [discriminate Hb|].
  apply in_app_or in Hin. destruct Hin as [Hin|Hin].
  { destruct (verifier_events_not_boot t ev Hev Hin) as [Hn _]. congruence. }
  exists cfg, ld, t. repeat (split; [reflexivity || assumption|]). exact Hin.
Qed.

End OrchestratorRuns.

(** X13: in every run of [main], whatever went wrong or not, an event that
    reaches the network or the shuffle occurs only after the configuration
    loaded and [loadLaunchFile] returned the manifest with a nil error,
    hence with a block height other than zero and with the snapshot and
    every visited contract at its declared digest. *)
Theorem network_only_after_load (w : World) (localConfig launchData : string)
    (ev : Event) :
  network_or_shuffle ev = true ->
  In ev (trace (main w localConfig launchData)) ->
  exists cfg ld,
    LoadLocalConfig w localConfig = (Some cfg, None)
    /\ result (loadLaunchFile w launchData (Some cfg)) = Ret (Some ld, None)
    /\ LaunchBitcoinBlockHeight ld <> 0%Z
    /\ snapshot_matches w cfg ld
    /\ Forall (contract_matches w) (rangeOrder w (contractMap cfg ld)).
Proof.
  intros Hn Hin.
  assert (Hb : is_boot_event ev = true) by (unfold is_boot_event; now rewrite Hn).
  destruct (main_boot_events w localConfig launchData ev Hb Hin)
    as (cfg & ld & t & _ & _ & Hc & El & _ & _).
  pose proof (loadLaunchFile_outcome w launchData (Some cfg)) as O.
  rewrite El in O. unfold result in O. simpl fst in O.
  destruct O as (ld' & cfg' & cnt & E & Ec & _ & _ & Hz & Hs & Hall).
  injection E as <-. injection Ec as <-.
  exists cfg, ld. rewrite El. repeat (split; [reflexivity || assumption|]).
  exact Hall.
Qed.

Lemma network_only_after_load_witness :
  exists cfg ld,
    LoadLocalConfig Fixture.agreed "config.yaml" = (Some cfg, None)
    /\ result (loadLaunchFile Fixture.agreed "launch.yaml" (Some cfg))
       = Ret (Some ld, None)
    /\ LaunchBitcoinBlockHeight ld <> 0%Z
    /\ snapshot_matches Fixture.agreed cfg ld
    /\ Forall (contract_matches Fixture.agreed)
              (rangeOrder Fixture.agreed (contractMap cfg ld)).
Proof.
  apply (network_only_after_load Fixture.agreed "config.yaml" "launch.yaml"
           EvWalletPublicKeys eq_refl).
  vm_compute. do 25 right. left. reflexivity.
Defined.

(** X14: in every run of [main] each step of the boot follows the success
    of the one before it: the snapshot is loaded only when the wallet
    answered, the producers are shuffled only when the snapshot loaded,
    and the boot sequence is run only when the shuffle returned no
    error. *)
Theorem each_step_follows_success (w : World) (localConfig launchData : string) :
  let tr := trace (main w localConfig launchData) in
  (forall p, In (EvNewSnapshot p) tr -> WalletPublicKeys w = None)
  /\ (In EvShuffleProducers tr ->
      exists p, In (EvNewSnapshot p) tr /\ NewSnapshot w p = None)
  /\ (In EvRun tr -> In EvShuffleProducers tr /\ ShuffleProducers w = None).
Proof.
  intros tr. split; [|split].
  - intros p Hin.
    destruct (main_boot_events w localConfig launchData (EvNewSnapshot p)
                eq_refl Hin) as (cfg & ld & t & _ & _ & _ & _ & _ & Hb).
    rewrite boot_eq in Hb.
    destruct (WalletPublicKeys w) as [e|]; [|reflexivity].
    exfalso. unfold trace in Hb. simpl in Hb.
    repeat (destruct Hb as [Hb|Hb]; [discriminate Hb|]). exact Hb.
  - intros Hin.
    destruct (main_boot_events w localConfig launchData EvShuffleProducers
                eq_refl Hin) as (cfg & ld & t & _ & _ & _ & _ & Em & Hb).
    exists (OpeningBalances.SnapshotPath (OpeningBalances cfg)).
    unfold tr. rewrite Em. unfold trace at 1. simpl snd.
    rewrite boot_eq in Hb |- *.
    destruct (WalletPublicKeys w) as [e|];
      [exfalso; unfold trace in Hb; simpl in Hb;
       repeat (destruct Hb as [Hb|Hb]; [discriminate Hb|]); exact Hb|].
    destruct (NewSnapshot w _) as [e|];
      [exfalso; unfold trace in Hb; simpl in Hb;
       repeat (destruct Hb as [Hb|Hb]; [discriminate Hb|]); exact Hb|].
    split; [|reflexivity].
    right. apply in_or_app. right.
    destruct (ShuffleProducers w); [|destruct (Run w)];
      unfold trace; simpl; do 5 right; left; reflexivity.
  - intros Hin.
    destruct (main_boot_events w localConfig launchData EvRun
                eq_refl Hin) as (cfg & ld & t & _ & _ & _ & _ & Em & Hb).
    unfold tr. rewrite Em. unfold trace at 1. simpl snd.
    rewrite boot_eq in Hb |- *.
    destruct (WalletPublicKeys w) as [e|];
      [exfalso; unfold trace in Hb; simpl in Hb;
       repeat (destruct Hb as [Hb|Hb]; [discriminate Hb|]); exact Hb|].
    destruct (NewSnapshot w _) as [e|];
      [exfalso; unfold trace in Hb; simpl in Hb;
       repeat (destruct Hb as [Hb|Hb]; [discriminate Hb|]); exact Hb|].
    destruct (ShuffleProducers w) as [e|];
      [exfalso; unfold trace in Hb; simpl in Hb;
       repeat (destruct Hb as [Hb|Hb]; [discriminate Hb|]); exact Hb|].
    split; [|reflexivity].
    right. apply in_or_app. right.
    destruct (Run w); unfold trace; simpl; do 7 right; left; reflexivity.
Qed.

(** X15: the snapshot file that [main] hands to the snapshot loader is
    the file [loadLaunchFile] hashed.  Whenever the loader is called, it
    is called with the configured snapshot path; [loadLaunchFile] had
    returned a manifest, the digest of the file at that path is the one
    that manifest declares, and the line that shows this digest was
    printed earlier in the run than the call of the loader. *)
Theorem snapshot_loaded_was_verified (w : World)
    (localConfig launchData p : string) :
  In (EvNewSnapshot p) (trace (main w localConfig launchData)) ->
  exists cfg ld t1 t2 t3,
    LoadLocalConfig w localConfig = (Some cfg, None)
    /\ result (loadLaunchFile w launchData (Some cfg)) = Ret (Some ld, None)
    /\ p = OpeningBalances.SnapshotPath (OpeningBalances cfg)
    /\ snapshot_matches w cfg ld
    /\ trace (main w localConfig launchData)
       = t1 ++ printedSnapshot p (OpeningBalancesSnapshotHash ld)
            :: t2 ++ EvNewSnapshot p :: t3.
Proof.
  intros Hin.
  destruct (main_boot_events w localConfig launchData (EvNewSnapshot p)
              eq_refl Hin) as (cfg & ld & t & _ & _ & Hc & El & Em & Hb).
  pose proof (loadLaunchFile_outcome w launchData (Some cfg)) as O.
  pose proof (loadLaunchFile_success_trace w launchData cfg ld) as T.
  rewrite El in O, T. unfold result in O, T. simpl fst in O, T.
  destruct O as (ld' & cfg' & cnt & E & Ec & _ & _ & _ & Hs & _).
  injection E as <-. injection Ec as <-.
  unfold trace in T. simpl snd in T. specialize (T eq_refl). subst t.
  exists cfg, ld,
    [EvLoadLocalConfig localConfig; EvReadFile launchData;
     EvReadFile (OpeningBalances.SnapshotPath (OpeningBalances cfg));
     EvSum (OpeningBalancesSnapshotHash ld)],
    (passedEvents (rangeOrder w (contractMap cfg ld)) ++ clientEvents cfg).
  rewrite El, Em. unfold result, trace. simpl fst. simpl snd.
  rewrite boot_eq in Hb |- *. cbv zeta in Hb |- *.
  destruct (WalletPublicKeys w) as [e|].
  { exfalso. unfold trace in Hb. simpl in Hb.
    repeat (destruct Hb as [Hb|Hb]; [discriminate Hb|]). exact Hb. }
  assert (Hp : p = OpeningBalances.SnapshotPath (OpeningBalances cfg)).
  { destruct (NewSnapshot w _); [|destruct (ShuffleProducers w);
      [|destruct (Run w)]];
      unfold trace in Hb; simpl in Hb;
      repeat (destruct Hb as [Hb|Hb]; [discriminate Hb || (now injection Hb)|]);
      contradiction. }
  subst p.
  destruct (NewSnapshot w _); [|destruct (ShuffleProducers w);
    [|destruct (Run w)]];
    eexists; (split; [exact Hc|]); (split; [reflexivity|]);
    (split; [reflexivity|]); (split; [exact Hs|]);
    unfold snapshotPrefix; simpl; rewrite <- !app_assoc; reflexivity.
Qed.

Lemma snapshot_loaded_was_verified_witness :
  exists cfg ld t1 t2 t3,
    LoadLocalConfig Fixture.agreed "config.yaml" = (Some cfg, None)
    /\ result (loadLaunchFile Fixture.agreed "launch.yaml" (Some cfg))
       = Ret (Some ld, None)
    /\ "snapshot.csv" = OpeningBalances.SnapshotPath (OpeningBalances cfg)
    /\ snapshot_matches Fixture.agreed cfg ld
    /\ trace (main Fixture.agreed "config.yaml" "launch.yaml")
       = t1 ++ printedSnapshot "snapshot.csv" (OpeningBalancesSnapshotHash ld)
            :: t2 ++ EvNewSnapshot "snapshot.csv" :: t3.
Proof.
  apply (snapshot_loaded_was_verified Fixture.agreed "config.yaml" "launch.yaml").
  vm_compute. do 26 right. left. reflexivity.
Defined.

Lemma each_step_follows_success_witness :
  In EvShuffleProducers
     (trace (main Fixture.agreed "config.yaml" "launch.yaml"))
  /\ ShuffleProducers Fixture.agreed = None.
Proof.
  apply (each_step_follows_success Fixture.agreed "config.yaml" "launch.yaml").
  vm_compute. do 29 right. left. reflexivity.
Defined.

Section OrchestratorOutcome.

Variable w : World.

(** A run of [main] that gets past the loading ends as [boot] does. *)
Lemma main_loaded (localConfig launchData : string) (cfg : Config)
    (ld : LaunchData) :
  localConfig <> "" -> launchData <> "" ->
  LoadLocalConfig w localConfig = (Some cfg, None) ->
  result (loadLaunchFile w launchData (Some cfg)) = Ret (Some ld, None) ->
  main w localConfig launchData
  = (result (boot w cfg),
     EvLoadLocalConfig localConfig
       :: trace (loadLaunchFile w launchData (Some cfg)) ++ trace (boot w cfg)).
Proof.
  intros H1 H2 Hc Hl. rewrite main_eq.
  apply String.eqb_neq in H1. apply String.eqb_neq in H2.
  rewrite H1, H2, Hc. cbv [orb].
  destruct (loadLaunchFile w launchData (Some cfg)) as [r t].
  unfold result in Hl. simpl fst in Hl. subst r. reflexivity.
Qed.

(** A run of [main] that returns got past the loading. *)
Lemma main_returns (localConfig launchData : string) (u : unit) :
  result (main w localConfig launchData) = Ret u ->
  exists cfg ld,
    localConfig <> "" /\ launchData <> ""
    /\ LoadLocalConfig w localConfig = (Some cfg, None)
    /\ result (loadLaunchFile w launchData (Some cfg)) = Ret (Some ld, None)
    /\ result (boot w cfg) = Ret u.
Proof.
  rewrite main_eq.
  destruct (String.eqb localConfig "" || String.eqb launchData "")%bool eqn:Hf;
    [discriminate|].
  apply orb_false_elim in Hf. destruct Hf as [H1 H2].
  apply String.eqb_neq in H1. apply String.eqb_neq in H2.
  destruct (LoadLocalConfig w localConfig) as [config [e|]] eqn:Hc;
    [discriminate|].
  destruct (loadLaunchFile w launchData config) as [[[[ld|] [e|]]| |c] t] eqn:El;
    try discriminate.
  destruct config as [cfg|]; [|discriminate].
  unfold result at 1. simpl fst. intros Hb.
  exists cfg, ld. rewrite El. repeat (split; [reflexivity || assumption|]).
  exact Hb.
Qed.

(** [boot] returns exactly when its four calls return no error. *)
Lemma boot_returns (cfg : Config) (u : unit) :
  result (boot w cfg) = Ret u
  <-> WalletPublicKeys w = None
      /\ NewSnapshot w (OpeningBalances.SnapshotPath (OpeningBalances cfg)) = None
      /\ ShuffleProducers w = None
      /\ Run w = None.
Proof.
  rewrite boot_eq. cbv zeta.
  destruct (WalletPublicKeys w) as [e|].
  { split; [discriminate | intros (H & _); discriminate H]. }
  destruct (NewSnapshot w _) as [e|].
  { split; [discriminate | intros (_ & H & _); discriminate H]. }
  destruct (ShuffleProducers w) as [e|].
  { split; [discriminate | intros (_ & _ & H & _); discriminate H]. }
  destruct (Run w) as [e|].
  { split; [discriminate | intros (_ & _ & _ & H); discriminate H]. }
  destruct u. split; [now repeat split | reflexivity].
Qed.

(** How a run of [boot] ends: in one fatal line, its last event, after
    an exit with status 1; or in the line that tells the time. *)
Lemma boot_ending (cfg : Config) :
  match result (boot w cfg) with
  | Exit c =>
      c = 1%Z
      /\ exists t e, trace (boot w cfg) = t ++ [e] /\ is_fatal e = true
                     /\ forallb (fun x => negb (is_fatal x)) t = true
  | Ret _ =>
      exists t, trace (boot w cfg) = t ++ [printedDone]
                /\ forallb (fun x => negb (is_fatal x)) t = true
  | Panic => False
  end.
Proof.
  rewrite boot_eq. cbv zeta.
  destruct (WalletPublicKeys w) as [e|].
  { split; [reflexivity|]. eexists (clientEvents cfg), _.
    split; [reflexivity|]. split; reflexivity. }
  destruct (NewSnapshot w _) as [e|].
  { split; [reflexivity|]. eexists (clientEvents cfg ++ [_]), _.
    split; [unfold trace; simpl; reflexivity|]. split; reflexivity. }
  destruct (ShuffleProducers w) as [e|].
  { split; [reflexivity|]. eexists (clientEvents cfg ++ [_; _; _]), _.
    split; [unfold trace; simpl; reflexivity|]. split; reflexivity. }
  destruct (Run w) as [e|].
  { split; [reflexivity|]. eexists (clientEvents cfg ++ [_; _; _; _]), _.
    split; [unfold trace; simpl; reflexivity|]. split; reflexivity. }
  eexists (clientEvents cfg ++ [_; _; _; _]).
  split; [unfold trace; simpl; reflexivity|]. reflexivity.
Qed.

End OrchestratorOutcome.

(** X16: [main] runs to its end, the line that tells the time, exactly
    when both flags are given, the configuration loads, [loadLaunchFile]
    returns the manifest with a nil error, and the wallet query, the
    loading of the snapshot, the shuffle and the boot sequence each return
    a nil error. *)
Theorem main_completes_iff (w : World) (localConfig launchData : string) :
  result (main w localConfig launchData) = Ret tt
  <-> exists cfg ld,
        localConfig <> "" /\ launchData <> ""
        /\ LoadLocalConfig w localConfig = (Some cfg, None)
        /\ result (loadLaunchFile w launchData (Some cfg)) = Ret (Some ld, None)
        /\ WalletPublicKeys w = None
        /\ NewSnapshot w (OpeningBalances.SnapshotPath (OpeningBalances cfg)) = None
        /\ ShuffleProducers w = None
        /\ Run w = None.
Proof.
  split.
  - intros H. destruct (main_returns w _ _ _ H) as (cfg & ld & H1 & H2 & Hc & Hl & Hb).
    exists cfg, ld. repeat (split; [assumption|]).
    apply (boot_returns w cfg tt), Hb.
  - intros (cfg & ld & H1 & H2 & Hc & Hl & Hb).
    rewrite (main_loaded w _ _ cfg ld H1 H2 Hc Hl).
    apply (boot_returns w cfg tt), Hb.
Qed.

(** X17: the whole of a run of [main] that completes, in order: the
    configuration is loaded; the manifest, the snapshot and the files of
    each contract are read and their digests printed, each the declared
    one; the two clients and the signer are made and the wallet queried;
    the snapshot is loaded, the producers are shuffled, the boot sequence
    is run and the time is printed.  Nothing else happens. *)
Theorem completed_run_trace (w : World) (localConfig launchData : string) :
  result (main w localConfig launchData) = Ret tt ->
  exists cfg ld,
    LoadLocalConfig w localConfig = (Some cfg, None)
    /\ result (loadLaunchFile w launchData (Some cfg)) = Ret (Some ld, None)
    /\ let sp := OpeningBalances.SnapshotPath (OpeningBalances cfg) in
       trace (main w localConfig launchData)
       = EvLoadLocalConfig localConfig
           :: snapshotPrefix launchData sp (OpeningBalancesSnapshotHash ld)
           ++ passedEvents (rangeOrder w (contractMap cfg ld))
           ++ clientEvents cfg
           ++ [EvNewSnapshot sp; EvNewBIOS; EvShuffleProducers; EvRun;
               printedDone].
Proof.
  intros H. destruct (main_returns w _ _ _ H) as (cfg & ld & H1 & H2 & Hc & Hl & Hb).
  exists cfg, ld. split; [assumption|]. split; [assumption|].
  cbv zeta. rewrite (main_loaded w _ _ cfg ld H1 H2 Hc Hl).
  unfold trace at 1. simpl snd.
  rewrite (loadLaunchFile_success_trace w launchData cfg ld Hl).
  apply (boot_returns w cfg tt) in Hb. destruct Hb as (Hw & Hs & Hf & Hr).
  rewrite boot_eq. cbv zeta. rewrite Hw, Hs, Hf, Hr.
  unfold trace. simpl snd. rewrite <- app_assoc. reflexivity.
Qed.

Lemma completed_run_trace_witness :
  exists cfg ld,
    LoadLocalConfig Fixture.agreed "config.yaml" = (Some cfg, None)
    /\ result (loadLaunchFile Fixture.agreed "launch.yaml" (Some cfg))
       = Ret (Some ld, None)
    /\ let sp := OpeningBalances.SnapshotPath (OpeningBalances cfg) in
       trace (main Fixture.agreed "config.yaml" "launch.yaml")
       = EvLoadLocalConfig "config.yaml"
           :: snapshotPrefix "launch.yaml" sp (OpeningBalancesSnapshotHash ld)
           ++ passedEvents (rangeOrder Fixture.agreed (contractMap cfg ld))
           ++ clientEvents cfg
           ++ [EvNewSnapshot sp; EvNewBIOS; EvShuffleProducers; EvRun;
               printedDone].
Proof.
  apply (completed_run_trace Fixture.agreed "config.yaml" "launch.yaml").
  vm_compute. reflexivity.
Defined.

(** X18: how a run of [main] ends once [flag.Parse] has returned, with
    the two flag values it parsed.  When the process exits, the status is
    1 and the run logged exactly one fatal line, as its last event; when
    [main] returns, the last event is the line that tells the time and no
    fatal line was logged; a run that panics logged no fatal line.  (A
    command line that [flag.Parse] refuses ends the process inside that
    call and is no run of this kind.) *)
Theorem main_exit_discipline (w : World) (localConfig launchData : string) :
  let tr := trace (main w localConfig launchData) in
  match result (main w localConfig launchData) with
  | Exit c =>
      c = 1%Z
      /\ exists t e, tr = t ++ [e] /\ is_fatal e = true
                     /\ forallb (fun x => negb (is_fatal x)) t = true
  | Ret _ =>
      exists t, tr = t ++ [printedDone]
                /\ forallb (fun x => negb (is_fatal x)) t = true
  | Panic => forallb (fun x => negb (is_fatal x)) tr = true
  end.
Proof.
  cbv zeta. rewrite main_eq.
  destruct (String.eqb localConfig "" || String.eqb launchData "")%bool.
  { split; [reflexivity|]. exists [], (EvFatal [AString "missing --launch-data or --local-config"]).
    repeat split. }
  destruct (LoadLocalConfig w localConfig) as [config [e|]].
  { split; [reflexivity|]. eexists [_], _. repeat split. }
  pose proof (loadLaunchFile_events w launchData config) as Hev.
  apply verifier_events_no_fatal in Hev.
  pose proof (loadLaunchFile_outcome w launchData config) as O.
  destruct (loadLaunchFile w launchData config) as [[[[ld|] [e|]]| |c] t];
    unfold result, trace in *; simpl fst in *; simpl snd in *.
  - split; [reflexivity|]. eexists (_ :: t), _.
    split; [reflexivity|]. split; [reflexivity|exact Hev].
  - destruct config as [cfg|]; [|exact Hev].
    pose proof (boot_ending w cfg) as B. unfold result, trace in B |- *.
    destruct (boot w cfg) as [[u| |c] tb]; simpl fst in *; simpl snd in *.
    + destruct B as (t' & -> & Hn). exists (EvLoadLocalConfig localConfig :: t ++ t').
      split; [simpl; now rewrite app_assoc|].
      simpl. rewrite forallb_app, Hev, Hn. reflexivity.
    + destruct B.
    + destruct B as (-> & t' & e & -> & He & Hn). split; [reflexivity|].
      exists (EvLoadLocalConfig localConfig :: t ++ t'), e.
      split; [simpl; now rewrite app_assoc|]. split; [exact He|].
      simpl. rewrite forallb_app, Hev, Hn. reflexivity.
  - split; [reflexivity|]. eexists (_ :: t), _.
    split; [reflexivity|]. split; [reflexivity|exact Hev].
  - exact Hev.
  - exact Hev.
  - destruct O.
Qed.

(** X19: a run of [main] with an empty flag, or whose configuration does
    not load, exits with status 1 before anything else is done: no file
    is read, no digest computed, no line printed, no client made. *)
Theorem bad_invocation_stops_at_once (w : World)
    (localConfig launchData : string) :
  localConfig = "" \/ launchData = ""
  \/ snd (LoadLocalConfig w localConfig) <> None ->
  result (main w localConfig launchData) = Exit 1
  /\ forall ev, In ev (trace (main w localConfig launchData)) ->
                is_verifier_event ev = false /\ is_boot_event ev = false.
Proof.
  intros H. rewrite main_eq.
  destruct (String.eqb localConfig "" || String.eqb launchData "")%bool eqn:Hf.
  { split; [reflexivity|]. intros ev [<-|[]]. split; reflexivity. }
  apply orb_false_elim in Hf. destruct Hf as [H1 H2].
  apply String.eqb_neq in H1. apply String.eqb_neq in H2.
  destruct H as [H|[H|H]]; [contradiction..|].
  destruct (LoadLocalConfig w localConfig) as [config [e|]];
    [|now simpl in H].
  split; [reflexivity|]. intros ev [<-|[<-|[]]]; split; reflexivity.
Qed.

Lemma bad_invocation_stops_at_once_witness :
  result (main Fixture.agreed "" "launch.yaml") = Exit 1
  /\ forall ev, In ev (trace (main Fixture.agreed "" "launch.yaml")) ->
                is_verifier_event ev = false /\ is_boot_event ev = false.
Proof.
  apply (bad_invocation_stops_at_once Fixture.agreed "" "launch.yaml").
  left. reflexivity.
Defined.

Section Stringer.

Lemma list_ascii_of_string_append (a b : string) :
  list_ascii_of_string (String.append a b)
  = list_ascii_of_string a ++ list_ascii_of_string b.
Proof. induction a as [|c a IH]; simpl; [reflexivity | now rewrite IH]. Qed.

Lemma length_append (a b : string) :
  String.length (String.append a b) = (String.length a + String.length b)%nat.
Proof. induction a as [|c a IH]; simpl; [reflexivity | now rewrite IH]. Qed.

Lemma length_spaces (n : nat) : String.length (fmt.spaces n) = n.
Proof. induction n as [|n IH]; simpl; [reflexivity | now rewrite IH]. Qed.

(** A byte below 0x80 is a rune of its own. *)
Lemma runeSize_ascii (c : Z) (rest : list Z) :
  (c < 0x80)%Z -> utf8.runeSize c rest = 1%nat.
Proof.
  intros H. unfold utf8.runeSize.
  destruct (Z.ltb_spec c 0x80) as [_|Hge]; [reflexivity | lia].
Qed.

Lemma RuneCount_spaces (n : nat) (s : string) :
  utf8.RuneCountInString (String.append (fmt.spaces n) s)
  = (n + utf8.RuneCountInString s)%nat.
Proof.
  unfold utf8.RuneCountInString.
  induction n as [|n IH]; [reflexivity|].
  change (fmt.spaces (S n)) with (String " " (fmt.spaces n)).
  change (String.append (String " " (fmt.spaces n)) s)
    with (String " " (String.append (fmt.spaces n) s)).
  change (list_ascii_of_string (String " " (String.append (fmt.spaces n) s)))
    with (" "%char :: list_ascii_of_string (String.append (fmt.spaces n) s)).
  rewrite map_cons. unfold utf8.count at 1. fold utf8.count.
  rewrite runeSize_ascii by (vm_compute; reflexivity).
  change (1 - 1)%nat with 0%nat. rewrite IH. reflexivity.
Qed.

Lemma RuneCount_ascii (s : string) :
  isASCII s -> utf8.RuneCountInString s = String.length s.
Proof.
  unfold isASCII, utf8.RuneCountInString.
  induction s as [|c s IH]; [reflexivity|].
  change (list_ascii_of_string (String c s)) with (c :: list_ascii_of_string s).
  intros H. inversion H as [|c' l' Hc Hs]; subst.
  rewrite map_cons. unfold utf8.count at 1. fold utf8.count.
  rewrite runeSize_ascii by lia.
  change (1 - 1)%nat with 0%nat. rewrite IH by assumption. reflexivity.
Qed.

(** A field of width [wid]: the whole string after spaces, [wid] runes
    wide unless the string is wider. *)
Lemma padString_runes (wid : nat) (s : string) :
  utf8.RuneCountInString (fmt.padString wid s)
  = Nat.max wid (utf8.RuneCountInString s).
Proof. unfold fmt.padString. rewrite RuneCount_spaces. lia. Qed.

Lemma padString_ascii (wid : nat) (s : string) :
  isASCII s -> (String.length s <= wid)%nat ->
  String.length (fmt.padString wid s) = wid.
Proof.
  intros Ha Hl. unfold fmt.padString.
  rewrite length_append, length_spaces, RuneCount_ascii by assumption. lia.
Qed.

End Stringer.

(** X20: the text of a producer never cuts a field and pads by runes, not
    by bytes: the account field is the whole account name after spaces and
    is 15 runes wide, or as wide as the name when that is more; the
    organization field likewise with 30; the keybase user and the URLs,
    joined by a comma and a space, are written as they are. *)
Theorem String_pads_by_runes (d : ProducerDef) :
  exists account org,
    ProducerDef_String (Some d)
    = (Ret (String.append "Account: "
             (String.append account
             (String.append "  Keybase: https://keybase.io/"
             (String.append (KeybaseUser d)
             (String.append "     Org: "
             (String.append org
             (String.append " URL: " (strings.Join (URLs d) ", ")))))))), [])
    /\ (exists n, account = String.append (fmt.spaces n) (AccountName d))
    /\ utf8.RuneCountInString account
       = Nat.max 15 (utf8.RuneCountInString (AccountName d))
    /\ (exists n, org = String.append (fmt.spaces n) (OrganizationName d))
    /\ utf8.RuneCountInString org
       = Nat.max 30 (utf8.RuneCountInString (OrganizationName d)).
Proof.
  exists (fmt.padString 15 (AccountName d)), (fmt.padString 30 (OrganizationName d)).
  split; [reflexivity|].
  split; [eexists; reflexivity|]. split; [apply padString_runes|].
  split; [eexists; reflexivity|]. apply padString_runes.
Qed.

(** X21: for a producer whose account name is ASCII of at most 15 bytes
    and whose organization name is ASCII of at most 30 bytes, the text
    has its labels at fixed columns: its length is 100 bytes and those of
    the keybase user and of the joined URLs, and the keybase label starts
    at byte 24. *)
Theorem String_aligns_ascii (d : ProducerDef) :
  isASCII (AccountName d) -> (String.length (AccountName d) <= 15)%nat ->
  isASCII (OrganizationName d) ->
  (String.length (OrganizationName d) <= 30)%nat ->
  exists s,
    ProducerDef_String (Some d) = (Ret s, [])
    /\ String.length s
       = (100 + String.length (KeybaseUser d)
          + String.length (strings.Join (URLs d) ", "))%nat
    /\ String.substring 24 30 s = "  Keybase: https://keybase.io/".
Proof.
  intros Ha Hal Ho Hol. eexists. split; [reflexivity|].
  pose proof (padString_ascii 15 _ Ha Hal) as H15.
  pose proof (padString_ascii 30 _ Ho Hol) as H30.
  split.
  - rewrite !length_append, H15, H30. simpl String.length. lia.
  - generalize dependent (fmt.padString 15 (AccountName d)).
    intros a H15.
    do 15 (destruct a as [|? a]; [discriminate H15|]).
    destruct a; [|discriminate H15].
    generalize (String.append (KeybaseUser d)
                  (String.append "     Org: "
                  (String.append (fmt.padString 30 (OrganizationName d))
                  (String.append " URL: " (strings.Join (URLs d) ", "))))).
    intros r. destruct r; reflexivity.
Qed.

Lemma String_aligns_ascii_witness :
  exists s,
    ProducerDef_String (Some Fixture.acme) = (Ret s, [])
    /\ String.length s
       = (100 + String.length (KeybaseUser Fixture.acme)
          + String.length (strings.Join (URLs Fixture.acme) ", "))%nat
    /\ String.substring 24 30 s = "  Keybase: https://keybase.io/".
Proof.
  apply (String_aligns_ascii Fixture.acme).
  - unfold isASCII. simpl. repeat constructor.
  - simpl. lia.
  - unfold isASCII. simpl. repeat constructor.
  - simpl. lia.
Defined.

(** * The audit trail of the verifier *)

Section AuditTrail.

Variable w : World.

(** A turn of the loop for an entry whose two files are readable prints
    the digest of their bytes, whether or not it is the declared one. *)
Lemma checkContract_prints (entry : string * contractCompare) (c a : bytes) :
  ReadFile w (CodePath (location (snd entry))) = (c, None) ->
  ReadFile w (ABIPath (location (snd entry))) = (a, None) ->
  In (printedContract (CodePath (location (snd entry)))
                      (ABIPath (location (snd entry))) (contractDigest c a))
     (trace (checkContract w entry)).
Proof.
  destruct entry as [name cmp]. simpl snd. intros Hc Ha.
  rewrite checkContract_eq, Hc, Ha. cbv zeta. fold (contractDigest c a).
  unfold trace. simpl snd. right; right; right; left. reflexivity.
Qed.

(** The loop reaches every entry before which all entries match, and
    prints the digest of that entry's files when they are readable. *)
Lemma rangeContracts_prints (before after : list (string * contractCompare))
    (entry : string * contractCompare) (c a : bytes) :
  Forall (contract_matches w) before ->
  ReadFile w (CodePath (location (snd entry))) = (c, None) ->
  ReadFile w (ABIPath (location (snd entry))) = (a, None) ->
  In (printedContract (CodePath (location (snd entry)))
                      (ABIPath (location (snd entry))) (contractDigest c a))
     (trace (rangeContracts w (before ++ entry :: after))).
Proof.
  intros Hb Hc Ha. induction Hb as [|x l Hx _ IH]; simpl app;
    rewrite rangeContracts_cons.
  - pose proof (checkContract_prints entry c a Hc Ha) as P.
    destruct (checkContract_spec w entry) as (r & t & E & _).
    rewrite E in P |- *. unfold trace in P. simpl snd in P.
    unfold bind. destruct r as [e|].
    + unfold trace, ret. simpl snd. apply in_or_app. now left.
    + destruct (rangeContracts w after) as [[r'| |k] t'];
        unfold trace; simpl snd; apply in_or_app; now left.
  - destruct (checkContract_spec w x) as (r & t & E & M & _).
    rewrite E. assert (r = None) as -> by now apply M.
    unfold bind.
    destruct (rangeContracts w (l ++ entry :: after)) as [[r'| |k] t'];
      unfold trace in IH |- *; simpl snd in IH |- *; apply in_or_app; now right.
Qed.

(** An entry that matches has readable files whose digest is the
    declared one. *)
Lemma contract_matches_reads (entry : string * contractCompare) :
  contract_matches w entry ->
  exists c a,
    ReadFile w (CodePath (location (snd entry))) = (c, None)
    /\ ReadFile w (ABIPath (location (snd entry))) = (a, None)
    /\ contractDigest c a = hash (snd entry).
Proof.
  unfold contract_matches. rewrite hashCodeFiles_eq.
  destruct (ReadFile w (CodePath (location (snd entry)))) as [c [e|]];
    [unfold result; simpl; discriminate|].
  destruct (ReadFile w (ABIPath (location (snd entry)))) as [a [e|]];
    [unfold result; simpl; discriminate|].
  cbv zeta. unfold result. simpl fst. intros H.
  apply (f_equal returned_digest) in H. simpl in H.
  exists c, a. split; [reflexivity|]. split; [reflexivity|]. exact H.
Qed.

(** What [loadLaunchFile] does once the manifest is decoded, its height
    is set and the snapshot is read. *)
Lemma loadLaunchFile_hashing (filename : string) (cfg : Config)
    (cnt scnt : bytes) (ld : LaunchData) :
  ReadFile w filename = (cnt, None) ->
  yamlUnmarshal w cnt None = (Some ld, None) ->
  LaunchBitcoinBlockHeight ld <> 0%Z ->
  ReadFile w (OpeningBalances.SnapshotPath (OpeningBalances cfg)) = (scnt, None) ->
  let sp := OpeningBalances.SnapshotPath (OpeningBalances cfg) in
  let s := hex.EncodeToString (sha256.Sum256 scnt) in
  (s <> OpeningBalancesSnapshotHash ld ->
   trace (loadLaunchFile w filename (Some cfg)) = snapshotPrefix filename sp s)
  /\ (s = OpeningBalancesSnapshotHash ld ->
      trace (loadLaunchFile w filename (Some cfg))
      = snapshotPrefix filename sp s
        ++ trace (rangeContracts w (rangeOrder w (contractMap cfg ld)))).
Proof.
  intros Hr Hy Hz Hs sp s.
  rewrite loadLaunchFile_eq, Hr, Hy. apply Z.eqb_neq in Hz. rewrite Hz.
  cbv zeta. rewrite Hs. fold sp. fold s.
  destruct (String.eqb_spec s (OpeningBalancesSnapshotHash ld)) as [E|N];
    cbv [negb].
  - split; [intros N; contradiction|]. intros _.
    destruct (rangeContracts_spec w (rangeOrder w (contractMap cfg ld)))
      as (r & t & Er & _).
    rewrite Er. destruct r; reflexivity.
  - split; [reflexivity | intros E; contradiction].
Qed.

End AuditTrail.

(** C8: every hash the verifier computes is printed, whether the
    comparison that follows passes or fails, and on runs that succeed.
    Once the manifest is decoded with its height set and the snapshot
    file is read, the line with the digest of the snapshot's bytes is
    printed, whatever digest the manifest declares.  When that digest is
    the declared one, the loop prints, for every contract it reaches (each
    contract before which all contracts matched) whose two files are
    readable, the line with the digest of code, ':' and ABI, whatever
    digest is declared for it.  When the load succeeds and [range] visits
    each entry once, each of the four contracts of the map has its files
    read and the line with their digest, the declared one, printed.  And
    in every run, whatever digest is finalised is an argument of a
    printed line. *)
Theorem computed_hashes_are_printed (w : World) (filename : string)
    (cfg : Config) (cnt scnt : bytes) (ld : LaunchData) :
  ReadFile w filename = (cnt, None) ->
  yamlUnmarshal w cnt None = (Some ld, None) ->
  LaunchBitcoinBlockHeight ld <> 0%Z ->
  ReadFile w (OpeningBalances.SnapshotPath (OpeningBalances cfg)) = (scnt, None) ->
  let sp := OpeningBalances.SnapshotPath (OpeningBalances cfg) in
  let s := hex.EncodeToString (sha256.Sum256 scnt) in
  let tr := trace (loadLaunchFile w filename (Some cfg)) in
  In (printedSnapshot sp s) tr
  /\ (s = OpeningBalancesSnapshotHash ld ->
      forall before entry after c a,
        rangeOrder w (contractMap cfg ld) = before ++ entry :: after ->
        Forall (contract_matches w) before ->
        ReadFile w (CodePath (location (snd entry))) = (c, None) ->
        ReadFile w (ABIPath (location (snd entry))) = (a, None) ->
        In (printedContract (CodePath (location (snd entry)))
                            (ABIPath (location (snd entry)))
                            (contractDigest c a)) tr)
  /\ (result (loadLaunchFile w filename (Some cfg)) = Ret (Some ld, None) ->
      range_visits_each_once w ->
      forall entry, In entry (contractMap cfg ld) ->
        exists c a,
          ReadFile w (CodePath (location (snd entry))) = (c, None)
          /\ ReadFile w (ABIPath (location (snd entry))) = (a, None)
          /\ contractDigest c a = hash (snd entry)
          /\ In (printedContract (CodePath (location (snd entry)))
                                 (ABIPath (location (snd entry)))
                                 (contractDigest c a)) tr)
  /\ (forall d, In (EvSum d) tr ->
        exists format args, In (EvPrintf format args) tr /\ In (AString d) args).
Proof.
  intros Hr Hy Hz Hs sp s tr.
  destruct (loadLaunchFile_hashing w filename cfg cnt scnt ld Hr Hy Hz Hs)
    as [Hfail Hpass].
  fold sp in Hfail, Hpass. fold s in Hfail, Hpass. fold tr in Hfail, Hpass.
  assert (Hprefix : forall t, In (printedSnapshot sp s)
                                 (snapshotPrefix filename sp s ++ t)).
  { intros t. apply in_or_app. left. unfold snapshotPrefix.
    right; right; right; left. reflexivity. }
  split; [|split; [|split]].
  - destruct (String.eqb_spec s (OpeningBalancesSnapshotHash ld)) as [E|N].
    + rewrite (Hpass E). apply Hprefix.
    + rewrite (Hfail N), <- (app_nil_r (snapshotPrefix filename sp s)).
      apply Hprefix.
  - intros E before entry after c a Ho Hb Hc Ha.
    rewrite (Hpass E), Ho. apply in_or_app. right.
    now apply rangeContracts_prints.
  - intros Hok Hperm entry Hin.
    pose proof (loadLaunchFile_outcome w filename (Some cfg)) as O.
    rewrite Hok in O.
    destruct O as (ld' & cfg' & cnt' & E & Ec & _ & _ & _ & Hm & Hall).
    injection E as <-. injection Ec as <-.
    assert (Hin' : In entry (rangeOrder w (contractMap cfg ld))).
    { eapply Permutation_in; [apply Permutation_sym, Hperm | exact Hin]. }
    rewrite Forall_forall in Hall.
    destruct (contract_matches_reads w entry (Hall entry Hin'))
      as (c & a & Hc & Ha & Hd).
    exists c, a. repeat (split; [assumption|]).
    unfold tr. rewrite (loadLaunchFile_success_trace w filename cfg ld Hok).
    apply in_or_app. right. unfold passedEvents. apply in_flat_map.
    exists entry. split; [exact Hin'|].
    rewrite Hd. unfold contractEvents. right; right; right; left. reflexivity.
  - apply (proj1 (loadLaunchFile_trace_facts w filename (Some cfg))).
Qed.

(** On the files with two altered contracts the load fails at bios, and
    the digest of the altered bios files, which is not the declared one,
    is printed; on the agreed files the load succeeds and the token
    contract's digest is printed. *)
Lemma computed_hashes_are_printed_witness :
  In (printedContract "bios.wasm" "bios.abi"
        (contractDigest (bytes_of_string "bios-codE") (bytes_of_string "bios-abi")))
     (trace (loadLaunchFile (Fixture.twoAltered Fixture.inOrder) "launch.yaml"
               (Some Fixture.config)))
  /\ In (printedSnapshot "snapshot.csv" Fixture.snapshotHash)
        (trace (loadLaunchFile Fixture.agreed "launch.yaml" (Some Fixture.config)))
  /\ exists c a,
       ReadFile Fixture.agreed "token.wasm" = (c, None)
       /\ ReadFile Fixture.agreed "token.abi" = (a, None)
       /\ contractDigest c a = ContractHashes.Token Fixture.hashes
       /\ In (printedContract "token.wasm" "token.abi" (contractDigest c a))
             (trace (loadLaunchFile Fixture.agreed "launch.yaml"
                       (Some Fixture.config))).
Proof.
  split; [|split].
  - pose proof (computed_hashes_are_printed (Fixture.twoAltered Fixture.inOrder)
                  "launch.yaml" Fixture.config
                  (bytes_of_string "launch_btc_block_height: 500000")
                  (bytes_of_string "alice,100") Fixture.manifest
                  eq_refl eq_refl ltac:(discriminate) eq_refl) as H.
    cbv zeta in H. destruct H as (_ & H & _).
    apply (H snapshot_digest [] _ _ (bytes_of_string "bios-codE")
             (bytes_of_string "bios-abi") eq_refl (Forall_nil _) eq_refl eq_refl).
  - pose proof (computed_hashes_are_printed Fixture.agreed
                  "launch.yaml" Fixture.config
                  (bytes_of_string "launch_btc_block_height: 500000")
                  (bytes_of_string "alice,100") Fixture.manifest
                  eq_refl eq_refl ltac:(discriminate) eq_refl) as H.
    cbv zeta in H. destruct H as (H & _).
    rewrite <- snapshot_digest. exact H.
  - pose proof (computed_hashes_are_printed Fixture.agreed
                  "launch.yaml" Fixture.config
                  (bytes_of_string "launch_btc_block_height: 500000")
                  (bytes_of_string "alice,100") Fixture.manifest
                  eq_refl eq_refl ltac:(discriminate) eq_refl) as H.
    cbv zeta in H. destruct H as (_ & _ & H & _).
    apply (H (f_equal fst agreed_load_succeeds) (fun m => Permutation_refl m)
             ("token", newCC (Contracts.Token (Contracts Fixture.config))
                             (ContractHashes.Token (ContractHashes Fixture.manifest)))).
    right; right; right; left. reflexivity.
Defined.
